(** * Blood bank locator: the query service of [backend.py]

    A shallow embedding of the FastAPI backend: the CSV loader
    [load_blood_banks], the great-circle distance [haversine], and the three
    handlers [get_nearby], [get_all_blood_banks] and [get_route], followed by
    the properties the specification states about them.

    Python floats are IEEE 754 binary64 values; they are modelled by
    [spec_float] with the operations of [SpecFloat] at precision 53 and
    maximal exponent 1024.  The C library functions behind [math.sin],
    [math.cos], [math.atan2] and [**] are parameters ([libm]); CPython's own
    wrappers around them are written out. *)

From Stdlib Require Import ZArith String Ascii DecimalString DecimalPos DecimalZ.
From Stdlib Require Import SpecFloat.
From stdpp Require Import base tactics option list strings gmap sorting.

Local Open Scope string_scope.
Local Open Scope Z_scope.

(** ** Python floats *)

Module PyFloat.

Definition prec : Z := 53.
Definition emax : Z := 1024.

Abbreviation float := spec_float.

Definition nan : float := S754_nan.
Definition pos_zero : float := S754_zero false.
Definition pos_inf : float := S754_infinity false.

Definition add : float → float → float := SFadd prec emax.
Definition sub : float → float → float := SFsub prec emax.
Definition mul : float → float → float := SFmul prec emax.
Definition div : float → float → float := SFdiv prec emax.
Definition sqrt : float → float := SFsqrt prec emax.
Definition opp : float → float := SFopp.
Definition abs : float → float := SFabs.

(** [x < y], [x <= y] and [x == y]: all three are false as soon as one
    side is NaN. *)
Definition ltb : float → float → bool := SFltb.
Definition leb : float → float → bool := SFleb.
Definition eqb : float → float → bool := SFeqb.

(** [float(n)] for a Python int [n]: the nearest binary64 value. *)
Definition of_int (n : Z) : float := binary_normalize prec emax n 0 false.

Definition isnan (x : float) : bool :=
  match x with S754_nan => true | _ => false end.
Definition isinf (x : float) : bool :=
  match x with S754_infinity _ => true | _ => false end.
Definition isfinite (x : float) : bool :=
  match x with S754_zero _ | S754_finite _ _ _ => true | _ => false end.
Definition iszero (x : float) : bool :=
  match x with S754_zero _ => true | _ => false end.

(** Every Python float is a well-formed binary64 value. *)
Definition valid (x : float) : bool := valid_binary prec emax x.

End PyFloat.

Import PyFloat.

Declare Scope float_scope.
Delimit Scope float_scope with float.
Infix "+" := PyFloat.add : float_scope.
Infix "-" := PyFloat.sub : float_scope.
Infix "*" := PyFloat.mul : float_scope.
Infix "/" := PyFloat.div : float_scope.

(** [Py_MATH_PI], the double nearest to pi (0x400921FB54442D18). *)
Definition Py_MATH_PI : float := S754_finite false 7074237752028440 (-51).

(** [degToRad = Py_MATH_PI / 180.0] of [mathmodule.c]. *)
Definition degToRad : float :=
  Eval vm_compute in (Py_MATH_PI / of_int 180)%float.

Definition radians (x : float) : float := (x * degToRad)%float.

Arguments PyFloat.add : simpl never.
Arguments PyFloat.sub : simpl never.
Arguments PyFloat.mul : simpl never.
Arguments PyFloat.div : simpl never.
Arguments PyFloat.sqrt : simpl never.
Arguments PyFloat.of_int : simpl never.
Arguments radians : simpl never.

(** ** Exceptions and results *)

Inductive exc_class :=
  | FileNotFoundError | ValueError | OverflowError | KeyError | TypeError
  | ValidationError | RequestException | OtherError.

(** A raised exception: a built-in or library exception with its message, or
    FastAPI's [HTTPException(status_code, detail)]. *)
Inductive exn :=
  | PyErr (cls : exc_class) (msg : string)
  | HTTPException (status_code : Z) (detail : string).

Definition string_of_Z (z : Z) : string := NilZero.string_of_int (Z.to_int z).

(** [str(e)]; Starlette renders an [HTTPException] as ["status: detail"]. *)
Definition exn_str (e : exn) : string :=
  match e with
  | PyErr _ msg => msg
  | HTTPException st d => string_of_Z st ++ ": " ++ d
  end.

Inductive result (A : Type) :=
  | Ok (a : A)
  | Err (e : exn).
Arguments Ok {A} a.
Arguments Err {A} e.

#[global] Instance result_ret : MRet result := λ A, @Ok A.
#[global] Instance result_bind : MBind result := λ A B f m,
  match m with Ok a => f a | Err e => Err e end.
#[global] Instance result_fmap : FMap result := λ A B f m,
  match m with Ok a => Ok (f a) | Err e => Err e end.

Definition is_ok {A} (r : result A) : bool :=
  match r with Ok _ => true | Err _ => false end.

(** ** The C library behind [math] *)

(** The platform's [sin], [cos], [atan2] and [pow] on doubles.  [sqrt] is
    not listed: IEEE 754 fixes it, and [PyFloat.sqrt] is that function. *)
Record libm := Libm {
  c_sin : float → float;
  c_cos : float → float;
  c_atan2 : float → float → float;
  c_pow : float → float → float
}.

Definition math_domain_error : exn := PyErr ValueError "math domain error".
Definition math_range_error : exn := PyErr OverflowError "math range error".

(** [math_1] of [mathmodule.c] with [can_overflow = 0]: a NaN result from a
    non-NaN argument and an infinite result from a finite argument both raise
    [ValueError]. *)
Definition math_1 (func : float → float) (x : float) : result float :=
  let r := func x in
  if isnan r && negb (isnan x) then Err math_domain_error
  else if isinf r && isfinite x then Err math_domain_error
  else Ok r.

Definition signbit (x : float) : bool :=
  match x with
  | S754_zero s | S754_infinity s | S754_finite s _ _ => s
  | S754_nan => false
  end.

Definition copysign (x y : float) : float :=
  if signbit y then opp (abs x) else abs x.

(** [m_atan2] of [mathmodule.c]: the special cases are decided before the C
    library is called. *)
Definition m_atan2 (M : libm) (y x : float) : float :=
  if isnan x || isnan y then nan
  else if isinf y then
    if isinf x then
      if negb (signbit x) then copysign (of_int 1 / of_int 4 * Py_MATH_PI)%float y
      else copysign (of_int 3 / of_int 4 * Py_MATH_PI)%float y
    else copysign (of_int 1 / of_int 2 * Py_MATH_PI)%float y
  else if isinf x || eqb y pos_zero then
    if negb (signbit x) then copysign pos_zero y
    else copysign Py_MATH_PI y
  else c_atan2 M y x.

(** [math_2] of [mathmodule.c]. *)
Definition math_2 (func : float → float → float) (x y : float) : result float :=
  let r := func x y in
  if isnan r && negb (isnan x) && negb (isnan y) then Err math_domain_error
  else if isinf r && isfinite x && isfinite y then Err math_range_error
  else Ok r.

Section Math.
Variable M : libm.

Definition math_sin : float → result float := math_1 (c_sin M).
Definition math_cos : float → result float := math_1 (c_cos M).
Definition math_sqrt : float → result float := math_1 PyFloat.sqrt.
Definition math_atan2 : float → float → result float := math_2 (m_atan2 M).

(** [x ** 2]: [float_pow] of [floatobject.c] at the exponent [2.0].  The
    special cases come first; a negative base is replaced by its absolute
    value (the exponent is an even integer, so the result is not negated);
    an infinite result of C's [pow] is reported as [OverflowError]. *)
Definition float_pow2 (iv : float) : result float :=
  if isnan iv then Ok iv
  else if isinf iv then Ok (abs iv)
  else if eqb iv pos_zero then Ok pos_zero
  else
    let iv := if ltb iv pos_zero then opp iv else iv in
    if eqb iv (of_int 1) then Ok (of_int 1)
    else
      let ix := c_pow M iv (of_int 2) in
      if isinf ix then Err (PyErr OverflowError "(34, 'Numerical result out of range')")
      else Ok ix.

(** [haversine] of [backend.py]; the operands of [a] are evaluated left to
    right, so the first failing call decides the exception. *)
Definition haversine (lat1 lon1 lat2 lon2 : float) : result float :=
  let R := 6371 in
  let dlat := radians (lat2 - lat1)%float in
  let dlon := radians (lon2 - lon1)%float in
  s1 ← math_sin (dlat / of_int 2)%float;
  p1 ← float_pow2 s1;
  c1 ← math_cos (radians lat1);
  c2 ← math_cos (radians lat2);
  s2 ← math_sin (dlon / of_int 2)%float;
  p2 ← float_pow2 s2;
  let a := (p1 + c1 * c2 * p2)%float in
  q1 ← math_sqrt a;
  q2 ← math_sqrt (of_int 1 - a)%float;
  t ← math_atan2 q1 q2;
  Ok (of_int (R * 2) * t)%float.

End Math.

(** ** Text *)

(** Characters for which [str.isspace] holds, among the code points below
    256. *)
Definition is_space (c : ascii) : bool :=
  let n := nat_of_ascii c in
  ((9 <=? n) && (n <=? 13) || (28 <=? n) && (n <=? 32)
   || (n =? 133) || (n =? 160))%nat.

Fixpoint lstrip (s : string) : string :=
  match s with
  | String c s' => if is_space c then lstrip s' else s
  | EmptyString => EmptyString
  end.

Definition string_rev (s : string) : string :=
  string_of_list_ascii (rev (list_ascii_of_string s)).

(** [str.strip()]. *)
Definition strip (s : string) : string :=
  string_rev (lstrip (string_rev (lstrip s))).

(** [sep.join(l)]. *)
Definition join (sep : string) (l : list string) : string := String.concat sep l.

(** Conversions between floats and text ([repr], used by [str] and by
    f-strings, and the parser behind [float(s)]); they belong to the run-time
    system and are parameters. *)
Record float_text := FloatText {
  float_repr : float → string;
  float_parse : string → option float
}.

(** ** Configuration *)

Definition CSV_PATH : string :=
  "C:\Users\xoxo3\OneDrive\Desktop\New folder\bloodbank\blood_banks.csv".

Definition default_key : string := "9e9f9e52-ce51-4f10-b4e4-f3fd74b63123".

(** [os.getenv("GRAPHHOPPER_API_KEY", default_key)], read once at import. *)
Definition GRAPHHOPPER_KEY (environ : gmap string string) : string :=
  default default_key (environ !! "GRAPHHOPPER_API_KEY").

(** The dict [col_mapping], in insertion order. *)
Definition col_mapping : list (string * string) :=
  [ ("id", "Sr No"); ("name", "Blood Bank Name"); ("address", "Address");
    ("city", "City"); ("state", "State"); ("latitude", "latitude");
    ("longitude", "longitude") ].

(** [col_mapping.values()]. *)
Definition col_mapping_values : list string := col_mapping.*2.

Fixpoint dict_get (d : list (string * string)) (k : string) : option string :=
  match d with
  | [] => None
  | (k', v) :: d' => if decide (k' = k) then Some v else dict_get d' k
  end.

(** [col_mapping[field]] for a field that is a key of the dict. *)
Definition col_of (field : string) : string :=
  default EmptyString (dict_get col_mapping field).

(** ** Data model *)

Record Location := { loc_latitude : float; loc_longitude : float }.

Record BloodBank := {
  id : string;
  name : string;
  address : string;
  city : string;
  state : string;
  latitude : float;
  longitude : float;
  distance : option float   (* [None] is Python's [None], the default *)
}.

(** [bank.distance = d]. *)
Definition set_distance (d : float) (b : BloodBank) : BloodBank :=
  {| id := id b; name := name b; address := address b; city := city b;
     state := state b; latitude := latitude b; longitude := longitude b;
     distance := Some d |}.

(** ** The table read from the CSV file *)

(** A cell as [iterrows] hands it over: text, an integer, a float or a
    boolean.  A missing value is the float NaN. *)
Inductive cell :=
  | CStr (s : string)
  | CInt (n : Z)
  | CFloat (x : float)
  | CBool (b : bool).

(** The frame [pd.read_csv] returns: the header as read and the rows, each
    with one cell per column.  Labels are taken to be pairwise distinct once
    stripped, so that [row[label]] is a single cell; pandas hands over a
    Series of cells, not a cell, for a label that occurs twice, and that case
    is not modelled.  The property that tells the kept rows by their cells and
    the one that compares two tables carry the hypothesis
    [NoDup (stripped_columns df)]. *)
Record DataFrame := {
  columns : list string;
  rows : list (list cell)
}.

(** What the file system and the parser answer: no file at [CSV_PATH], a
    failure of [pd.read_csv], or a frame. *)
Inductive csv_source :=
  | NoFile
  | ReadFails (e : exn)
  | Frame (df : DataFrame).

Definition is_missing (c : cell) : bool :=
  match c with CFloat x => isnan x | _ => false end.

(** The effect of [df[label] = df[label].fillna(empty string)] on one row. *)
Definition fillna_row (cols : list string) (label : string) (r : list cell) : list cell :=
  match list_find (λ c, c = label) cols with
  | Some (i, _) => alter (λ c, if is_missing c then CStr EmptyString else c) i r
  | None => r
  end.

(** [row[label]], for a label that occurs at most once in [cols]. *)
Definition row_get (cols : list string) (r : list cell) (label : string) : result cell :=
  match list_find (λ c, c = label) cols with
  | Some (i, _) =>
      match r !! i with
      | Some c => Ok c
      | None => Err (PyErr KeyError label)
      end
  | None => Err (PyErr KeyError label)
  end.

(** A [str] field of a pydantic model accepts text only (pydantic 2 does not
    turn numbers into text). *)
Definition validate_str (field : string) (c : cell) : result string :=
  match c with
  | CStr s => Ok s
  | _ => Err (PyErr ValidationError (field ++ ": Input should be a valid string"))
  end.

Section Loader.
Variable T : float_text.

(** [str(v)] of a cell. *)
Definition py_str (c : cell) : string :=
  match c with
  | CStr s => s
  | CInt n => string_of_Z n
  | CFloat x => float_repr T x
  | CBool b => if b then "True" else "False"
  end.

(** [float(v)] of a cell. *)
Definition py_float (c : cell) : result float :=
  match c with
  | CStr s =>
      match float_parse T s with
      | Some x => Ok x
      | None => Err (PyErr ValueError ("could not convert string to float: " ++ s))
      end
  | CInt n =>
      let x := of_int n in
      if isinf x then Err (PyErr OverflowError "int too large to convert to float")
      else Ok x
  | CFloat x => Ok x
  | CBool b => Ok (of_int (if b then 1 else 0))
  end.

(** The call [BloodBank(id=..., ..., longitude=...)] on one row: the
    arguments are evaluated in order, then the model validates its string
    fields.  [distance] keeps its default. *)
Definition make_bank (cols : list string) (r : list cell) : result BloodBank :=
  v_id ← row_get cols r (col_of "id");
  v_name ← row_get cols r (col_of "name");
  v_address ← row_get cols r (col_of "address");
  v_city ← row_get cols r (col_of "city");
  v_state ← row_get cols r (col_of "state");
  v_lat ← row_get cols r (col_of "latitude");
  lat ← py_float v_lat;
  v_lon ← row_get cols r (col_of "longitude");
  lon ← py_float v_lon;
  s_name ← validate_str "name" v_name;
  s_address ← validate_str "address" v_address;
  s_city ← validate_str "city" v_city;
  s_state ← validate_str "state" v_state;
  Ok {| id := py_str v_id; name := s_name; address := s_address;
        city := s_city; state := s_state; latitude := lat;
        longitude := lon; distance := None |}.

(** The body of the row loop: a row whose construction raises is logged
    and skipped. *)
Definition bank_of_row (cols : list string) (r : list cell) : option BloodBank :=
  match make_bank cols r with
  | Ok b => Some b
  | Err _ => None
  end.

(** [df.columns.str.strip()]. *)
Definition stripped_columns (df : DataFrame) : list string := strip <$> columns df.

Definition missing_cols (df : DataFrame) : list string :=
  filter (λ c, c ∉ stripped_columns df) col_mapping_values.

(** A row after the two [fillna] assignments, and all of them. *)
Definition fill_row (df : DataFrame) (r : list cell) : list cell :=
  fillna_row (stripped_columns df) "City"
    (fillna_row (stripped_columns df) "Address" r).

Definition filled_rows (df : DataFrame) : list (list cell) :=
  fill_row df <$> rows df.

(** The inner [try] block of [load_blood_banks]. *)
Definition load_body (src : csv_source) : result (list BloodBank) :=
  match src with
  | NoFile => Err (PyErr FileNotFoundError ("CSV file not found at " ++ CSV_PATH))
  | ReadFails e => Err e
  | Frame df =>
      let missing := missing_cols df in
      match missing with
      | [] => Ok (omap (bank_of_row (stripped_columns df)) (filled_rows df))
      | _ :: _ =>
          Err (PyErr ValueError ("CSV missing required columns: " ++ join ", " missing))
      end
  end.

(** [load_blood_banks]: every exception becomes an [HTTPException]. *)
Definition load_blood_banks (src : csv_source) : result (list BloodBank) :=
  match load_body src with
  | Ok banks => Ok banks
  | Err e => Err (HTTPException 500 ("CSV Error: " ++ exn_str e))
  end.

End Loader.

(** ** Sorting *)

(** [sorted(l, key=...)] on the list of (key, element) pairs CPython builds.
    CPython's sort compares keys with [<] only and is stable.  When [<] is a
    strict weak order on the keys (floats without NaN) there is exactly one
    stable sorted arrangement, and [sorted_by_key] computes it by insertion:
    each element is placed in front of the first element that is not smaller
    than it, so elements with equal keys keep their order.

    With a NaN among the keys [<] is no such order.  The arrangement CPython
    returns then depends on the runs and the binary insertions of its own
    algorithm, and [sorted_by_key] need not return the same one: like
    CPython's result it is a rearrangement of the list, and no more is
    claimed.  The properties of the order below are stated for keys without
    NaN; the others use of the result only that it rearranges the list. *)
Fixpoint insert_by_key {A} (x : float * A) (l : list (float * A)) : list (float * A) :=
  match l with
  | [] => [x]
  | y :: l' => if ltb y.1 x.1 then y :: insert_by_key x l' else x :: y :: l'
  end.

Fixpoint sorted_by_key {A} (l : list (float * A)) : list (float * A) :=
  match l with
  | [] => []
  | x :: l' => insert_by_key x (sorted_by_key l')
  end.

(** ** Handlers *)

(** [except Exception as e: raise HTTPException(status_code=500, detail=str(e))]. *)
Definition or_http_500 {A} (r : result A) : result A :=
  match r with
  | Ok a => Ok a
  | Err e => Err (HTTPException 500 (exn_str e))
  end.

Section Handlers.
Variables (M : libm) (T : float_text).

(** One turn of the loop of [get_nearby]: the distance is computed and
    stored in the record; that stored value is the sort key. *)
Definition with_distance (location : Location) (bank : BloodBank)
    : result (float * BloodBank) :=
  d ← haversine M (loc_latitude location) (loc_longitude location)
                  (latitude bank) (longitude bank);
  Ok (d, set_distance d bank).

(** [sorted(banks, key=lambda x: x.distance)]. *)
Definition rank (keyed : list (float * BloodBank)) : list BloodBank :=
  (sorted_by_key keyed).*2.

(** [POST /nearby]. *)
Definition get_nearby (src : csv_source) (location : Location) : result (list BloodBank) :=
  or_http_500 (
    banks ← load_blood_banks T src;
    keyed ← mapM (with_distance location) banks;
    Ok (take 10 (rank keyed))).

(** [GET /all-blood-banks]. *)
Definition get_all_blood_banks (src : csv_source) : result (list BloodBank) :=
  or_http_500 (load_blood_banks T src).

End Handlers.

(** ** The route proxy *)

(** The arguments of [requests.get(url, params=params)]. *)
Record request := {
  req_url : string;
  req_params : list (string * list string)
}.

(** The routing service's answer: a status code and, when the body is JSON,
    that body ([response.json()]). *)
Record response := {
  resp_status : Z;
  resp_json : option string
}.

Section Route.
Variable T : float_text.
(** The network: what [requests.get] returns or raises for a request. *)
Variable http_get : request → result response.
Variable environ : gmap string string.

(** [response.raise_for_status()]. *)
Definition raise_for_status (r : response) : result unit :=
  if ((400 <=? resp_status r) && (resp_status r <? 600))%Z
  then Err (PyErr RequestException (string_of_Z (resp_status r) ++ " Error"))
  else Ok ().

Definition is_request_exception (e : exn) : bool :=
  match e with PyErr RequestException _ => true | _ => false end.

(** [GET /route]: the requests sent, in order, and the outcome. *)
Definition get_route (start_lat start_lon end_lat end_lon : float)
    : list request * result string :=
  let handle (e : exn) : exn :=
    if is_request_exception e
    then HTTPException 500 ("Routing API error: " ++ exn_str e)
    else HTTPException 500 (exn_str e) in
  if decide (GRAPHHOPPER_KEY environ = EmptyString) then
    ([], Err (handle (HTTPException 500 "Graphhopper API key not configured")))
  else
    let url := "https://graphhopper.com/api/1/route" in
    let params :=
      [ ("point", [ float_repr T start_lat ++ "," ++ float_repr T start_lon;
                    float_repr T end_lat ++ "," ++ float_repr T end_lon ]);
        ("vehicle", ["car"]);
        ("key", [GRAPHHOPPER_KEY environ]);
        ("points_encoded", ["false"]) ] in
    let req := {| req_url := url; req_params := params |} in
    ([req],
     match http_get req with
     | Err e => Err (handle e)
     | Ok resp =>
         match raise_for_status resp with
         | Err e => Err (handle e)
         | Ok _ =>
             match resp_json resp with
             | Some body => Ok body
             | None => Err (handle (PyErr RequestException "Expecting value"))
             end
         end
     end).

End Route.

(** ** A small C library to run the model

    Polynomial kernels in binary64 arithmetic, exact on the special values:
    enough to evaluate the handlers on concrete tables. *)

Module RefLibm.

(** [1 - x2/(k(k+1)) * (1 - x2/((k+2)(k+3)) * ...)], [n] factors deep. *)
Fixpoint alternating (n : nat) (k : Z) (x2 : float) : float :=
  match n with
  | O => of_int 1
  | S n' => (of_int 1 - x2 / of_int (k * (k + 1)) * alternating n' (k + 2) x2)%float
  end.

(** Results are kept inside [-1, 1]. *)
Definition saturate (r : float) : float :=
  if valid r && leb (abs r) (of_int 1) then r else of_int 1.

Definition sin (x : float) : float :=
  match x with
  | S754_nan | S754_infinity _ => nan
  | S754_zero _ => x
  | S754_finite s m e =>
      let a := S754_finite false m e in
      let r := saturate (a * alternating 12 2 (a * a))%float in
      if s then opp r else r
  end.

Definition cos (x : float) : float :=
  match x with
  | S754_nan | S754_infinity _ => nan
  | S754_zero _ => of_int 1
  | S754_finite _ _ _ => saturate (alternating 12 1 (x * x)%float)
  end.

(** [1/k - u2 * (1/(k+2) - u2 * ...)]. *)
Fixpoint atan_series (n : nat) (k : Z) (u2 : float) : float :=
  match n with
  | O => (of_int 1 / of_int k)%float
  | S n' => (of_int 1 / of_int k - u2 * atan_series n' (k + 2) u2)%float
  end.

(** [atan t = 2 atan (t / (1 + sqrt (1 + t^2)))]. *)
Definition halve (t : float) : float :=
  (t / (of_int 1 + PyFloat.sqrt (of_int 1 + t * t)))%float.

(** [atan t] for [0 <= t <= 1]. *)
Definition atan_unit (t : float) : float :=
  let u := halve (halve t) in
  (of_int 4 * (u * atan_series 14 1 (u * u)))%float.

Definition atan2 (y x : float) : float :=
  let ay := abs y in
  let ax := abs x in
  let half_pi := (Py_MATH_PI / of_int 2)%float in
  let base :=
    if leb ay ax then atan_unit (ay / ax)%float
    else (half_pi - atan_unit (ax / ay))%float in
  let angle := if signbit x then (Py_MATH_PI - base)%float else base in
  if signbit y then opp angle else angle.

(** Only squares occur in the backend. *)
Definition pow (x y : float) : float :=
  if eqb y (of_int 2) then (x * x)%float else nan.

Definition lib : libm :=
  {| c_sin := sin; c_cos := cos; c_atan2 := atan2; c_pow := pow |}.

(** [repr] and [float(s)] on the special values and on whole numbers. *)
Definition repr (x : float) : string :=
  match x with
  | S754_nan => "nan"
  | S754_infinity s => if s then "-inf" else "inf"
  | S754_zero s => if s then "-0.0" else "0.0"
  | S754_finite s m e =>
      (if s then "-" else EmptyString) ++ string_of_Z (Z.shiftl (Zpos m) e) ++ ".0"
  end.

Definition parse (s : string) : option float :=
  if decide (s = "nan") then Some nan
  else if decide (s = "inf") then Some pos_inf
  else if decide (s = "-inf") then Some (opp pos_inf)
  else (λ i, of_int (Z.of_int i)) <$> NilZero.int_of_string s.

Definition text : float_text := {| float_repr := repr; float_parse := parse |}.

End RefLibm.

(** ** The distance as the specification words it

    [a = sin²(Δlat/2) + cos(lat1)·cos(lat2)·sin²(Δlon/2)] and
    [distance = 2R·atan2(√a, √(1−a))] with [R = 6371], the differences and
    the latitudes in radians. *)
Section Formula.
Variable M : libm.


Definition sin_squared (x : float) : result float :=
  s ← math_sin M x; float_pow2 M s.


End Formula.

(** ** Predicates of the specification *)

(** [x.distance <= y.distance], both being floats. *)
Definition distance_le (x y : BloodBank) : Prop :=
  ∃ dx dy, distance x = Some dx ∧ distance y = Some dy ∧ leb dx dy = true.

(** [b.distance == d]. *)
Definition has_distance (d : float) (b : BloodBank) : bool :=
  match distance b with
  | Some k => eqb k d
  | None => false
  end.

(** [b'] is [b] after [b.distance = haversine(origin, b)]. *)
Definition measured (M : libm) (origin : Location) (b b' : BloodBank) : Prop :=
  ∃ d, haversine M (loc_latitude origin) (loc_longitude origin)
         (latitude b) (longitude b) = Ok d
       ∧ b' = set_distance d b.

(** The constructor accepts the cells of the row [r]: there is a cell under
    [Sr No], the cells under [Blood Bank Name] and [State] are text, the cells
    under [Address] and [City] are text or missing, and [float] accepts the
    cells under [latitude] and [longitude]. *)
Definition row_acceptable (T : float_text) (cols : list string) (r : list cell) : Prop :=
  ∃ v_id s_name v_address v_city s_state v_lat v_lon,
    row_get cols r "Sr No" = Ok v_id
    ∧ row_get cols r "Blood Bank Name" = Ok (CStr s_name)
    ∧ row_get cols r "Address" = Ok v_address
    ∧ (is_missing v_address = true ∨ ∃ s, v_address = CStr s)
    ∧ row_get cols r "City" = Ok v_city
    ∧ (is_missing v_city = true ∨ ∃ s, v_city = CStr s)
    ∧ row_get cols r "State" = Ok (CStr s_state)
    ∧ row_get cols r "latitude" = Ok v_lat
    ∧ is_ok (py_float T v_lat) = true
    ∧ row_get cols r "longitude" = Ok v_lon
    ∧ is_ok (py_float T v_lon) = true.

(** Properties of the C library the theorems on distances rely on: [sin] maps
    [+0] to [+0] and is odd; [cos] of a finite argument is a double of
    magnitude at most 1. *)
Definition sin_zero (M : libm) : Prop := c_sin M pos_zero = pos_zero.
Definition sin_odd (M : libm) : Prop := ∀ x, c_sin M (opp x) = opp (c_sin M x).
Definition cos_unit (M : libm) : Prop :=
  ∀ x, isfinite x = true →
    valid (c_cos M x) = true ∧ leb (abs (c_cos M x)) (of_int 1) = true.

(** ** Sample data *)

Module Sample.

Definition header : list string :=
  [ "Sr No"; " Blood Bank Name"; "Address "; "City"; "State"; "Pincode";
    "latitude"; "longitude" ].

Definition row (n : Z) (name addr : cell) (lat lon : cell) : list cell :=
  [ CInt n; name; addr; CStr "Delhi"; CStr "Delhi"; CInt 110001; lat; lon ].

Definition delhi : list cell :=
  row 1 (CStr "Red Cross") (CStr "1 Red Cross Road") (CInt 28) (CInt 77).
Definition mumbai : list cell :=
  row 2 (CStr "City Hospital") (CFloat nan) (CInt 19) (CInt 72).
Definition no_name : list cell :=
  row 3 (CFloat nan) (CStr "Main Street") (CInt 20) (CInt 78).
Definition bad_latitude : list cell :=
  row 4 (CStr "Clinic") (CStr "Ring Road") (CStr "north") (CInt 78).
Definition no_latitude (n : Z) : list cell :=
  row n (CStr "Camp") (CStr "Field") (CFloat nan) (CInt 78).
Definition far_north : list cell :=
  row 7 (CStr "Pole") (CStr "Ice") (CFloat pos_inf) (CInt 0).

Definition table : DataFrame :=
  {| columns := header; rows := [delhi; mumbai; no_name; bad_latitude] |}.

Definition no_state_column : DataFrame :=
  {| columns := [ "Sr No"; "Blood Bank Name"; "Address"; "City"; "latitude" ];
     rows := [] |}.

Definition two_unlocated : DataFrame :=
  {| columns := header; rows := [no_latitude 5; no_latitude 6] |}.

Definition with_infinite : DataFrame :=
  {| columns := header; rows := [far_north] |}.

(** The records [table] loads into. *)
Definition bank_delhi : BloodBank :=
  {| id := "1"; name := "Red Cross"; address := "1 Red Cross Road";
     city := "Delhi"; state := "Delhi"; latitude := of_int 28;
     longitude := of_int 77; distance := None |}.
Definition bank_mumbai : BloodBank :=
  {| id := "2"; name := "City Hospital"; address := EmptyString;
     city := "Delhi"; state := "Delhi"; latitude := of_int 19;
     longitude := of_int 72; distance := None |}.

(** The records [two_unlocated] and [with_infinite] load into. *)
Definition camp (n : string) : BloodBank :=
  {| id := n; name := "Camp"; address := "Field"; city := "Delhi";
     state := "Delhi"; latitude := nan; longitude := of_int 78;
     distance := None |}.
Definition pole : BloodBank :=
  {| id := "7"; name := "Pole"; address := "Ice"; city := "Delhi";
     state := "Delhi"; latitude := pos_inf; longitude := of_int 0;
     distance := None |}.

Definition origin : Location :=
  {| loc_latitude := of_int 28; loc_longitude := of_int 77 |}.

(** Twelve sites in whole degrees, some of them at the same place: sites
    2 and 7 are at [origin], and sites 6 and 10, at the same distance, are
    tenth and eleventh from it. *)
Definition site (n lat lon : Z) : list cell :=
  row n (CStr "Site") (CStr "Road") (CInt lat) (CInt lon).

Definition district : DataFrame :=
  {| columns := header;
     rows := [ site 1 19 72; site 2 28 77; site 3 13 80; site 4 28 78;
               site 5 19 72; site 6 17 78; site 7 28 77; site 8 26 75;
               site 9 28 78; site 10 17 78; site 11 23 72; site 12 30 76 ] |}.

Definition bank_site (n lat lon : Z) : BloodBank :=
  {| id := string_of_Z n; name := "Site"; address := "Road"; city := "Delhi";
     state := "Delhi"; latitude := of_int lat; longitude := of_int lon;
     distance := None |}.

(** The records [district] loads into. *)
Definition district_banks : list BloodBank :=
  [ bank_site 1 19 72; bank_site 2 28 77; bank_site 3 13 80; bank_site 4 28 78;
    bank_site 5 19 72; bank_site 6 17 78; bank_site 7 28 77; bank_site 8 26 75;
    bank_site 9 28 78; bank_site 10 17 78; bank_site 11 23 72; bank_site 12 30 76 ].

Definition camp_site : Location :=
  {| loc_latitude := of_int 28; loc_longitude := of_int 78 |}.

(** What [POST /nearby] answers for [table] and [origin]. *)
Definition near_delhi : BloodBank := set_distance pos_zero bank_delhi.
Definition near_mumbai : BloodBank :=
  set_distance (S754_finite false 4937977559207997 (-42)) bank_mumbai.
Definition nearest : list BloodBank := [near_delhi; near_mumbai].

(** A routing service that always answers 200 with a JSON body. *)
Definition service (_ : request) : result response :=
  Ok {| resp_status := 200; resp_json := Some "{}" |}.

End Sample.

(** ** Ranking floats *)

(** Floats other than NaN are ranked by a triple compared
    lexicographically: the class (from minus infinity to plus infinity) and,
    for finite non-zero numbers, exponent and mantissa, negated when the
    number is negative. *)
Definition ord (x : float) : Z * Z * Z :=
  match x with
  | S754_nan => (0, 0, 0)
  | S754_zero _ => (0, 0, 0)
  | S754_infinity s => (if s then -2 else 2, 0, 0)
  | S754_finite s m e => if s then (-1, - e, Zneg m) else (1, e, Zpos m)
  end.

Definition lex_lt (a b : Z * Z * Z) : Prop :=
  a.1.1 < b.1.1
  ∨ a.1.1 = b.1.1 ∧ (a.1.2 < b.1.2 ∨ a.1.2 = b.1.2 ∧ a.2 < b.2).

Definition lex_compare (a b : Z * Z * Z) : comparison :=
  match a.1.1 ?= b.1.1 with
  | Eq => match a.1.2 ?= b.1.2 with
          | Eq => a.2 ?= b.2
          | c => c
          end
  | c => c
  end.

(** [p] and [q] are (key, element) pairs with [key p <= key q]. *)
Definition key_le {A} (p q : float * A) : Prop := leb p.1 q.1 = true.

(** [x] is zero or a finite number whose mantissa has at most 53 bits and
    whose exponent is at most [k]: a double of magnitude below [2^(k+53)]. *)
Definition below (k : Z) (x : float) : Prop :=
  match x with
  | S754_zero _ => True
  | S754_finite _ m e => Zpos (digits2_pos m) ≤ 53 ∧ e ≤ k
  | _ => False
  end.

(** ** The Streamlit client ([frontend.py]) *)

#[local] Set Warnings "-register-all".

(** A value [response.json()] returns; [JNull] is Python's [None]. *)
Inductive json :=
  | JNull
  | JBool (b : bool)
  | JInt (n : Z)
  | JNumber (x : float)
  | JString (s : string)
  | JArray (l : list json)
  | JObject (l : list (string * json)).

(** What the client reads of a [requests] response: [status_code], [text]
    and the outcome of [json()], which raises on a body that is not JSON. *)
Record client_response := {
  status_code : Z;
  text : string;
  json_body : result json
}.

(** [st.session_state]: the two entries the script initialises to [None]. *)
Record session := {
  manual_location : option (float * float);
  all_blood_banks : json
}.

(** What a helper leaves behind: the session, the URLs requested, the
    messages shown with [st.error], and the value returned ([JNull] for
    [None]). *)
Record outcome := {
  out_session : session;
  out_requests : list string;
  out_errors : list string;
  out_value : json
}.

Definition BACKEND_URL : string := "http://localhost:8000".

(** [get_location]: the browser's answer [geo] is the value of
    [streamlit_geolocation()], a dict whose entries may be [None], or [None]
    itself.  The result is a pair of possibly-[None] coordinates, or [None]. *)
Definition get_location (st : session) (geo : option (gmap string (option float)))
    : option (option float * option float) :=
  match manual_location st with
  | Some (lat, lon) => Some (Some lat, Some lon)
  | None =>
      match geo with
      | Some location =>
          match location !! "latitude", location !! "longitude" with
          | Some lat, Some lon => Some (lat, lon)
          | _, _ => None
          end
      | None => None
      end
  end.

(** [load_all_blood_banks]; [http_get] is what [requests.get] returns or
    raises for a URL. *)
Definition load_all_blood_banks (http_get : string → result client_response)
    (st : session) : outcome :=
  let failed (reqs : list string) (msg : string) :=
    {| out_session := st; out_requests := reqs; out_errors := [msg];
       out_value := JNull |} in
  match all_blood_banks st with
  | JNull =>
      let url := BACKEND_URL ++ "/all-blood-banks" in
      match http_get url with
      | Err e => failed [url] ("Error loading blood bank data: " ++ exn_str e)
      | Ok response =>
          if decide (status_code response = 200) then
            match json_body response with
            | Ok v =>
                {| out_session := {| manual_location := manual_location st;
                                     all_blood_banks := v |};
                   out_requests := [url]; out_errors := []; out_value := v |}
            | Err e => failed [url] ("Error loading blood bank data: " ++ exn_str e)
            end
          else failed [url] ("Failed to load blood banks: " ++ text response)
      end
  | cached =>
      {| out_session := st; out_requests := []; out_errors := [];
         out_value := cached |}
  end.

(** [get_nearby_blood_banks]; [http_post] is what [requests.post] returns
    or raises for a URL and a JSON body. *)
Definition get_nearby_blood_banks (http_post : string → json → result client_response)
    (st : session) (lat lon : float) : outcome :=
  let url := BACKEND_URL ++ "/nearby" in
  let failed (msg : string) :=
    {| out_session := st; out_requests := [url]; out_errors := [msg];
       out_value := JNull |} in
  match http_post url (JObject [("latitude", JNumber lat); ("longitude", JNumber lon)]) with
  | Err e => failed ("Error connecting to server: " ++ exn_str e)
  | Ok response =>
      if decide (status_code response = 200) then
        match json_body response with
        | Ok v =>
            {| out_session := st; out_requests := [url]; out_errors := [];
               out_value := v |}
        | Err e => failed ("Error connecting to server: " ++ exn_str e)
        end
      else failed ("Error from server: " ++ text response)
  end.

(** * Properties *)

(** ** The result monad *)

Lemma bind_Ok_inv {A B} (m : result A) (f : A → result B) (b : B) :
  m ≫= f = Ok b → ∃ a, m = Ok a ∧ f a = Ok b.
Proof. destruct m as [a|e]; [eauto | discriminate]. Qed.

Lemma or_http_500_Ok {A} (r : result A) (a : A) : or_http_500 r = Ok a ↔ r = Ok a.
Proof. destruct r; simpl; split; congruence. Qed.

Ltac inv_bind H :=
  repeat match type of H with
  | _ ≫= _ = Ok _ =>
      let a := fresh "v" in let Ha := fresh "Hv" in
      apply bind_Ok_inv in H as (a & Ha & H)
  end.

Lemma mapM_Ok_Forall2 {A B} (f : A → result B) (l : list A) (k : list B) :
  mapM f l = Ok k ↔ Forall2 (λ x y, f x = Ok y) l k.
Proof.
  revert k. induction l as [|x l IH]; intros k; simpl.
  - split; [intros [= <-]; constructor | by inversion 1].
  - split.
    + intros H. apply bind_Ok_inv in H as (y & Hy & H).
      apply bind_Ok_inv in H as (k' & Hk' & [= <-]).
      constructor; [done | by apply IH].
    + inversion 1 as [|? y ? k' Hy Hk']; subst.
      rewrite Hy. simpl. apply IH in Hk'. by rewrite Hk'.
Qed.

Lemma mapM_Ok_total {A B} (f : A → result B) (l : list A) :
  (∀ x, x ∈ l → ∃ y, f x = Ok y) → ∃ k, mapM f l = Ok k.
Proof.
  induction l as [|x l IH]; intros H; simpl; [by eexists |].
  destruct (H x) as [y Hy]; [left |].
  destruct IH as [k Hk]; [intros; apply H; by right |].
  exists (y :: k). by rewrite Hy; simpl; rewrite Hk.
Qed.

(** One failing element makes [mapM] fail. *)
Lemma mapM_Err_elem_of {A B} (f : A → result B) (l : list A) (x : A) :
  x ∈ l → is_ok (f x) = false → is_ok (mapM f l) = false.
Proof.
  intros Hx Hf. induction Hx as [x l|x y l Hx IH].
  - change (mapM f (x :: l)) with (f x ≫= λ y, mapM f l ≫= λ k, mret (y :: k)).
    by destruct (f x).
  - change (mapM f (y :: l)) with (f y ≫= λ z, mapM f l ≫= λ k, mret (z :: k)).
    destruct (f y); [|done]. cbn [mbind result_bind].
    destruct (mapM f l); [discriminate (IH Hf) | done].
Qed.

(** ** The loader *)

Section LoaderFacts.
Variable T : float_text.

Lemma missing_cols_nil df :
  missing_cols df = [] ↔ ∀ c, c ∈ col_mapping_values → c ∈ stripped_columns df.
Proof.
  unfold missing_cols. split.
  - intros Hnil c Hc. destruct (decide (c ∈ stripped_columns df)) as [|Hn]; [done |].
    assert (c ∈ filter (λ c, c ∉ stripped_columns df) col_mapping_values) as Hin
      by (apply list_elem_of_filter; done).
    rewrite Hnil in Hin. by apply elem_of_nil in Hin.
  - intros Hall. apply elem_of_nil_inv. intros c Hc.
    apply list_elem_of_filter in Hc as [Hn Hc]. by apply Hn, Hall.
Qed.

Lemma load_frame_ok df :
  missing_cols df = [] →
  load_blood_banks T (Frame df)
  = Ok (omap (bank_of_row T (stripped_columns df)) (filled_rows df)).
Proof. intros H. unfold load_blood_banks, load_body. by rewrite H. Qed.

Lemma load_Ok_inv src banks :
  load_blood_banks T src = Ok banks →
  ∃ df, src = Frame df ∧ missing_cols df = []
        ∧ banks = omap (bank_of_row T (stripped_columns df)) (filled_rows df).
Proof.
  unfold load_blood_banks, load_body.
  destruct src as [|e|df]; try discriminate.
  destruct (missing_cols df) eqn:Hm; [|discriminate].
  intros [= <-]. eauto.
Qed.

Lemma bank_of_row_Some cols r b :
  bank_of_row T cols r = Some b ↔ make_bank T cols r = Ok b.
Proof. unfold bank_of_row. destruct (make_bank T cols r); split; congruence. Qed.

Lemma bank_of_row_None cols r :
  bank_of_row T cols r = None ↔ is_ok (make_bank T cols r) = false.
Proof. unfold bank_of_row. by destruct (make_bank T cols r). Qed.

(** The kept rows and the records line up. *)
Lemma omap_filter_banks cols (f : list cell → list cell) rs :
  Forall2 (λ r b, make_bank T cols (f r) = Ok b)
    (filter (λ r, is_ok (make_bank T cols (f r))) rs)
    (omap (bank_of_row T cols) (f <$> rs)).
Proof.
  induction rs as [|r rs IH]; [constructor |].
  rewrite fmap_cons. cbn [omap list_omap]. unfold bank_of_row at 1.
  destruct (make_bank T cols (f r)) as [b|e] eqn:Hb.
  - rewrite filter_cons_True by (rewrite Hb; exact I). by constructor.
  - rewrite filter_cons_False by (rewrite Hb; intros []). done.
Qed.

Lemma length_omap_le {A B} (g : A → option B) (l : list A) :
  (length (omap g l) ≤ length l)%nat.
Proof.
  induction l as [|x l IH]; [done |]. cbn [omap list_omap].
  destruct (g x); cbn [length]; fold (omap g l); lia.
Qed.

(** What a successful construction says about the row. *)
Lemma make_bank_Ok_inv cols r b :
  make_bank T cols r = Ok b →
  ∃ v_id v_lat v_lon,
    row_get cols r "Sr No" = Ok v_id ∧ id b = py_str T v_id
    ∧ row_get cols r "Blood Bank Name" = Ok (CStr (name b))
    ∧ row_get cols r "Address" = Ok (CStr (address b))
    ∧ row_get cols r "City" = Ok (CStr (city b))
    ∧ row_get cols r "State" = Ok (CStr (state b))
    ∧ row_get cols r "latitude" = Ok v_lat ∧ py_float T v_lat = Ok (latitude b)
    ∧ row_get cols r "longitude" = Ok v_lon ∧ py_float T v_lon = Ok (longitude b)
    ∧ distance b = None.
Proof.
  unfold make_bank. change (col_of "id") with "Sr No".
  change (col_of "name") with "Blood Bank Name".
  change (col_of "address") with "Address". change (col_of "city") with "City".
  change (col_of "state") with "State". change (col_of "latitude") with "latitude".
  change (col_of "longitude") with "longitude".
  intros H. inv_bind H.
  repeat match goal with
  | H : validate_str _ ?c = Ok _ |- _ => destruct c; simpl in H; [|discriminate..]
  end.
  simplify_eq/=. eauto 20.
Qed.

(** [fillna] touches the two defaulted columns only. *)
Lemma row_get_fillna cols fill_label label r :
  label ≠ fill_label →
  row_get cols (fillna_row cols fill_label r) label = row_get cols r label.
Proof.
  intros Hne. unfold row_get, fillna_row.
  destruct (list_find (λ c, c = fill_label) cols) as [[i x]|] eqn:Hi; [|done].
  destruct (list_find (λ c, c = label) cols) as [[j y]|] eqn:Hj; [|done].
  apply list_find_Some in Hi as (Hi & -> & _).
  apply list_find_Some in Hj as (Hj & -> & _).
  rewrite list_lookup_alter_ne; [done |]. intros ->. congruence.
Qed.

Lemma row_get_fill_row df label r :
  label ≠ "Address" → label ≠ "City" →
  row_get (stripped_columns df) (fill_row df r) label
  = row_get (stripped_columns df) r label.
Proof. intros. unfold fill_row. by rewrite !row_get_fillna. Qed.

(** In a defaulted column the cell is kept, except that a missing value
    becomes the empty string. *)
Lemma row_get_fillna_same cols label r c :
  row_get cols (fillna_row cols label r) label = Ok c →
  ∃ c0, row_get cols r label = Ok c0
        ∧ c = if is_missing c0 then CStr EmptyString else c0.
Proof.
  unfold row_get, fillna_row.
  destruct (list_find (λ c, c = label) cols) as [[i x]|] eqn:Hi; [|done].
  rewrite list_lookup_alter_eq. destruct (r !! i) as [c0|]; simpl; [|done].
  intros [= <-]. eauto.
Qed.

Lemma row_get_fill_row_address df r c :
  row_get (stripped_columns df) (fill_row df r) "Address" = Ok c →
  ∃ c0, row_get (stripped_columns df) r "Address" = Ok c0
        ∧ c = if is_missing c0 then CStr EmptyString else c0.
Proof.
  unfold fill_row. rewrite row_get_fillna by done. apply row_get_fillna_same.
Qed.

Lemma row_get_fill_row_city df r c :
  row_get (stripped_columns df) (fill_row df r) "City" = Ok c →
  ∃ c0, row_get (stripped_columns df) r "City" = Ok c0
        ∧ c = if is_missing c0 then CStr EmptyString else c0.
Proof.
  unfold fill_row. intros H. apply row_get_fillna_same in H as (c1 & H & ->).
  rewrite row_get_fillna in H by done. eauto.
Qed.

(** Every record of a load comes from a row of the table. *)
Lemma load_elem_of_inv df banks b :
  load_blood_banks T (Frame df) = Ok banks → b ∈ banks →
  ∃ r, r ∈ rows df ∧ make_bank T (stripped_columns df) (fill_row df r) = Ok b.
Proof.
  intros H Hb. apply load_Ok_inv in H as (df' & [= <-] & _ & ->).
  apply list_elem_of_omap in Hb as (r' & Hr' & Hb).
  apply list_elem_of_fmap in Hr' as (r & -> & Hr).
  apply bank_of_row_Some in Hb. eauto.
Qed.

End LoaderFacts.

(** ** The order on floats *)

Lemma SFcompare_ord (x y : float) :
  isnan x = false → isnan y = false →
  SFcompare x y = Some (lex_compare (ord x) (ord y)).
Proof.
  destruct x as [sx|sx| |sx mx ex], y as [sy|sy| |sy my ey]; try discriminate;
    intros _ _; try (by destruct sx, sy).
  destruct sx, sy; try done; unfold lex_compare; simpl.
  rewrite Z.compare_opp, (Z.compare_antisym ex ey). by destruct (ex ?= ey).
Qed.

Lemma lex_compare_Lt a b : lex_compare a b = Lt ↔ lex_lt a b.
Proof.
  destruct a as [[a1 a2] a3], b as [[b1 b2] b3]. unfold lex_compare, lex_lt; simpl.
  destruct (Z.compare_spec a1 b1), (Z.compare_spec a2 b2), (Z.compare_spec a3 b3);
    split; try done; lia.
Qed.

Lemma lex_compare_Eq a b : lex_compare a b = Eq ↔ a = b.
Proof.
  destruct a as [[a1 a2] a3], b as [[b1 b2] b3]. unfold lex_compare; simpl.
  destruct (Z.compare_spec a1 b1), (Z.compare_spec a2 b2), (Z.compare_spec a3 b3);
    split; intros; simplify_eq; try done; lia.
Qed.

Lemma lex_compare_Gt a b : lex_compare a b = Gt ↔ lex_lt b a.
Proof.
  destruct a as [[a1 a2] a3], b as [[b1 b2] b3]. unfold lex_compare, lex_lt; simpl.
  destruct (Z.compare_spec a1 b1), (Z.compare_spec a2 b2), (Z.compare_spec a3 b3);
    split; try done; lia.
Qed.

Lemma ltb_nan_l y : ltb nan y = false.
Proof. done. Qed.

Lemma compare_nan_r x : SFcompare x S754_nan = None.
Proof. by destruct x. Qed.

Lemma ltb_true_not_nan x y : ltb x y = true → isnan x = false ∧ isnan y = false.
Proof.
  unfold ltb, SFltb. destruct x, y; try done.
Qed.

Lemma leb_true_not_nan x y : leb x y = true → isnan x = false ∧ isnan y = false.
Proof. unfold leb, SFleb. destruct x, y; try done. Qed.

Lemma eqb_true_not_nan x y : eqb x y = true → isnan x = false ∧ isnan y = false.
Proof. unfold eqb, SFeqb. destruct x, y; try done. Qed.

Lemma ltb_ord x y :
  isnan x = false → isnan y = false → ltb x y = true ↔ lex_lt (ord x) (ord y).
Proof.
  intros Hx Hy. unfold ltb, SFltb. rewrite SFcompare_ord by done.
  rewrite <- lex_compare_Lt. by destruct (lex_compare (ord x) (ord y)).
Qed.

Lemma leb_ord x y :
  isnan x = false → isnan y = false → leb x y = true ↔ ¬ lex_lt (ord y) (ord x).
Proof.
  intros Hx Hy. unfold leb, SFleb. rewrite SFcompare_ord by done.
  rewrite <- lex_compare_Gt. by destruct (lex_compare (ord x) (ord y)).
Qed.

Lemma eqb_ord x y :
  isnan x = false → isnan y = false → eqb x y = true ↔ ord x = ord y.
Proof.
  intros Hx Hy. unfold eqb, SFeqb. rewrite SFcompare_ord by done.
  rewrite <- lex_compare_Eq. by destruct (lex_compare (ord x) (ord y)).
Qed.

Ltac lex_solve :=
  unfold lex_lt in *;
  repeat match goal with
  | x : float |- _ =>
      lazymatch goal with
      | H : context [ord x] |- _ => idtac
      | |- context [ord x] => idtac
      end;
      let a := fresh "a" in let b := fresh "b" in let c := fresh "c" in
      destruct (ord x) as [[a b] c]; clear x
  end;
  simpl in *; simplify_eq; try lia.

(** [<] is a strict weak order away from NaN, and [<=] is its negation
    flipped. *)
Lemma ltb_false_leb x y :
  isnan x = false → isnan y = false → ltb y x = false → leb x y = true.
Proof.
  intros Hx Hy H. apply leb_ord; [done..|]. intros Hlt.
  apply ltb_ord in Hlt; [congruence | done..].
Qed.

Lemma ltb_leb x y : ltb x y = true → leb x y = true.
Proof.
  intros H. destruct (ltb_true_not_nan _ _ H) as [Hx Hy].
  apply ltb_ord in H; [|done..]. apply leb_ord; [done..|]. lex_solve.
Qed.

Lemma leb_trans x y z : leb x y = true → leb y z = true → leb x z = true.
Proof.
  intros H1 H2. destruct (leb_true_not_nan _ _ H1) as [Hx Hy].
  destruct (leb_true_not_nan _ _ H2) as [_ Hz].
  apply leb_ord in H1, H2; [|done..]. apply leb_ord; [done..|]. lex_solve.
Qed.

(** Two floats equal to the same float are not strictly ordered. *)
Lemma ltb_not_both_eqb x y d :
  ltb y x = true → eqb y d = true → eqb x d = true → False.
Proof.
  intros Hlt Hy Hx. destruct (ltb_true_not_nan _ _ Hlt) as [Hny Hnx].
  destruct (eqb_true_not_nan _ _ Hy) as [_ Hnd].
  apply ltb_ord in Hlt; [|done..]. apply eqb_ord in Hy, Hx; [|done..].
  rewrite Hy, Hx in Hlt. lex_solve.
Qed.

(** ** Sorting *)

Section Sorting.
Context {A : Type}.
Implicit Types (x : float * A) (l : list (float * A)).

Lemma insert_by_key_perm x l : insert_by_key x l ≡ₚ x :: l.
Proof.
  induction l as [|y l IH]; simpl; [done |].
  destruct (ltb y.1 x.1); [|done]. rewrite IH. apply Permutation_swap.
Qed.

Lemma sorted_by_key_perm l : sorted_by_key l ≡ₚ l.
Proof.
  induction l as [|x l IH]; simpl; [done |].
  rewrite insert_by_key_perm. by rewrite IH.
Qed.

Lemma length_sorted_by_key l : length (sorted_by_key l) = length l.
Proof. apply Permutation_length, sorted_by_key_perm. Qed.

(** Stability: the elements whose key equals [d] come out in the order
    they went in.  It holds whatever the keys are. *)
Lemma insert_by_key_filter d x l :
  filter (λ p, eqb p.1 d) (insert_by_key x l) = filter (λ p, eqb p.1 d) (x :: l).
Proof.
  induction l as [|y l IH]; simpl; [done |].
  destruct (ltb y.1 x.1) eqn:Hlt; [|done].
  rewrite (filter_cons _ y), IH, !filter_cons.
  destruct (decide (eqb y.1 d)) as [Hy|]; [|done].
  destruct (decide (eqb x.1 d)) as [Hx|]; [|done].
  destruct (ltb_not_both_eqb x.1 y.1 d); [done | by apply Is_true_true..].
Qed.

Lemma sorted_by_key_stable d l :
  filter (λ p, eqb p.1 d) (sorted_by_key l) = filter (λ p, eqb p.1 d) l.
Proof.
  induction l as [|x l IH]; simpl; [done |].
  by rewrite insert_by_key_filter, !filter_cons, IH.
Qed.

Lemma insert_by_key_sorted x l :
  isnan x.1 = false → Forall (λ p, isnan p.1 = false) l →
  StronglySorted key_le l → StronglySorted key_le (insert_by_key x l).
Proof.
  intros Hx Hl Hs. induction Hs as [|y l Hs IH Hy]; simpl.
  - repeat constructor.
  - apply Forall_cons in Hl as [Hny Hl].
    destruct (ltb y.1 x.1) eqn:Hlt.
    + constructor; [by apply IH |].
      rewrite insert_by_key_perm. constructor; [by apply ltb_leb | done].
    + assert (key_le x y) as Hxy by (by apply ltb_false_leb).
      constructor; [by constructor |]. constructor; [done |].
      eapply Forall_impl; [exact Hy |]. intros z Hz. by eapply leb_trans.
Qed.

Lemma sorted_by_key_sorted l :
  Forall (λ p, isnan p.1 = false) l → StronglySorted key_le (sorted_by_key l).
Proof.
  induction l as [|x l IH]; simpl; [constructor |].
  intros [Hx Hl]%Forall_cons. apply insert_by_key_sorted; [done | | by apply IH].
  by rewrite sorted_by_key_perm.
Qed.

End Sorting.

(** ** Ranking *)

Section NearbyFacts.
Variables (M : libm) (T : float_text).

Lemma with_distance_Ok_inv loc b p :
  with_distance M loc b = Ok p →
  measured M loc b p.2 ∧ distance p.2 = Some p.1.
Proof.
  unfold with_distance, measured. intros H.
  apply bind_Ok_inv in H as (d & Hd & [= <-]). simpl. eauto.
Qed.

Lemma with_distance_total loc b :
  (∃ d, haversine M (loc_latitude loc) (loc_longitude loc)
          (latitude b) (longitude b) = Ok d) →
  ∃ p, with_distance M loc b = Ok p.
Proof. intros [d Hd]. unfold with_distance. rewrite Hd. by eexists. Qed.

Lemma keyed_measured loc banks keyed :
  mapM (with_distance M loc) banks = Ok keyed →
  Forall2 (measured M loc) banks keyed.*2
  ∧ Forall (λ p, distance p.2 = Some p.1) keyed.
Proof.
  intros H. apply mapM_Ok_Forall2 in H.
  induction H as [|b p banks keyed Hp _ [IH1 IH2]]; simpl.
  - split; constructor.
  - apply with_distance_Ok_inv in Hp as [? ?]. split; by constructor.
Qed.

(** Without a NaN distance there is no NaN key. *)
Lemma keyed_not_nan loc banks keyed :
  mapM (with_distance M loc) banks = Ok keyed →
  (∀ b, b ∈ banks →
     haversine M (loc_latitude loc) (loc_longitude loc) (latitude b) (longitude b)
     ≠ Ok nan) →
  Forall (λ p, isnan p.1 = false) keyed.
Proof.
  intros Hk Hnan. apply mapM_Ok_Forall2 in Hk. apply Forall_forall. intros p Hp.
  apply list_elem_of_lookup in Hp as [i Hi].
  destruct (Forall2_lookup_r _ _ _ _ _ Hk Hi) as (b & Hb & Hp).
  apply list_elem_of_lookup_2 in Hb. specialize (Hnan b Hb).
  unfold with_distance in Hp.
  destruct (haversine M _ _ _ _) as [d|]; [|done].
  injection Hp as <-. simpl. by destruct d.
Qed.

Lemma get_nearby_Ok_inv src loc out :
  get_nearby M T src loc = Ok out →
  ∃ banks keyed,
    load_blood_banks T src = Ok banks
    ∧ mapM (with_distance M loc) banks = Ok keyed
    ∧ out = take 10 (rank keyed).
Proof.
  unfold get_nearby. rewrite or_http_500_Ok. intros H.
  apply bind_Ok_inv in H as (banks & Hb & H).
  apply bind_Ok_inv in H as (keyed & Hk & [= <-]). eauto.
Qed.

Lemma get_nearby_Ok src loc banks keyed :
  load_blood_banks T src = Ok banks →
  mapM (with_distance M loc) banks = Ok keyed →
  get_nearby M T src loc = Ok (take 10 (rank keyed)).
Proof. intros Hb Hk. unfold get_nearby. rewrite Hb. simpl. by rewrite Hk. Qed.

Lemma rank_perm (keyed : list (float * BloodBank)) : rank keyed ≡ₚ keyed.*2.
Proof. unfold rank. by rewrite sorted_by_key_perm. Qed.

Lemma length_rank loc banks keyed :
  mapM (with_distance M loc) banks = Ok keyed → length (rank keyed) = length banks.
Proof.
  intros Hk. rewrite rank_perm, length_fmap.
  apply mapM_Ok_Forall2 in Hk. symmetry. exact (Forall2_length _ _ _ Hk).
Qed.

(** A filter on the stored distance is a filter on the key. *)
Lemma filter_has_distance d (l : list (float * BloodBank)) :
  Forall (λ p, distance p.2 = Some p.1) l →
  filter (has_distance d) l.*2 = (filter (λ p, eqb p.1 d) l).*2.
Proof.
  induction 1 as [|p l Hp _ IH]; [done |].
  assert (has_distance d p.2 = eqb p.1 d) as Hhd
    by (unfold has_distance; by rewrite Hp).
  rewrite fmap_cons, !filter_cons, IH.
  destruct (decide (has_distance d p.2)) as [H1|H1],
    (decide (eqb p.1 d)) as [H2|H2]; try done; by rewrite Hhd in H1.
Qed.

Lemma rank_stable d keyed :
  Forall (λ p, distance p.2 = Some p.1) keyed →
  filter (has_distance d) (rank keyed) = filter (has_distance d) keyed.*2.
Proof.
  intros Hk. unfold rank. rewrite !filter_has_distance, sorted_by_key_stable; [done..|].
  by rewrite sorted_by_key_perm.
Qed.

Lemma filter_take_prefix {A} (P : A → Prop) `{!∀ x, Decision (P x)} n (l : list A) :
  filter P (take n l) `prefix_of` filter P l.
Proof.
  rewrite <- (take_drop n l) at 2. rewrite filter_app. by apply prefix_app_r.
Qed.

Lemma rank_sorted keyed :
  Forall (λ p, distance p.2 = Some p.1) keyed →
  Forall (λ p, isnan p.1 = false) keyed →
  StronglySorted distance_le (rank keyed).
Proof.
  intros Hk Hn. unfold rank.
  assert (Forall (λ p, distance p.2 = Some p.1) (sorted_by_key keyed)) as Hk'
    by (by rewrite sorted_by_key_perm).
  pose proof (sorted_by_key_sorted keyed Hn) as Hs.
  induction Hs as [|p l Hs IH Hp]; [constructor |].
  apply Forall_cons in Hk' as [Hd Hk']. rewrite fmap_cons.
  constructor; [by apply IH |]. apply Forall_fmap, Forall_forall.
  intros q Hq. exists p.1, q.1. split; [done |]. split.
  - by eapply Forall_forall in Hk'.
  - by eapply Forall_forall in Hp.
Qed.

Lemma StronglySorted_take {A} (R : relation A) n (l : list A) :
  StronglySorted R l → StronglySorted R (take n l).
Proof.
  rewrite <- (take_drop n l) at 1. apply StronglySorted_app_1_l.
Qed.

End NearbyFacts.

(** ** The route proxy *)

(** With the variable set to the empty string the handler answers with an
    error and sends nothing. *)
Lemma get_route_empty_key T http_get (environ : gmap string string) a b c d :
  environ !! "GRAPHHOPPER_API_KEY" = Some EmptyString →
  get_route T http_get environ a b c d
  = ([], Err (HTTPException 500 "500: Graphhopper API key not configured")).
Proof.
  intros H. unfold get_route, GRAPHHOPPER_KEY. rewrite H. reflexivity.
Qed.

(** ** Binary64 arithmetic: signs *)

Lemma opp_involutive x : opp (opp x) = x.
Proof. destruct x as [[]|[]| |[] m e]; reflexivity. Qed.

Lemma binary_round_aux_opp s m e l :
  binary_round_aux prec emax (negb s) m e l
  = opp (binary_round_aux prec emax s m e l).
Proof.
  unfold binary_round_aux.
  destruct (shr_fexp prec emax m e l) as [mrs' e'].
  destruct (shr_fexp prec emax _ e' loc_Exact) as [mrs'' e''].
  destruct (shr_m mrs''); [done | | done].
  by destruct (e'' <=? emax - prec).
Qed.

Lemma binary_round_opp s m e :
  binary_round prec emax (negb s) m e = opp (binary_round prec emax s m e).
Proof.
  unfold binary_round. destruct (shl_align _ _ _) as [mz ez].
  apply binary_round_aux_opp.
Qed.

(** [-x * y = -(x * y)] and [-x / y = -(x / y)], NaN included. *)
Lemma mul_opp_l x y : (opp x * y)%float = opp (x * y)%float.
Proof.
  unfold PyFloat.mul.
  destruct x as [sx|sx| |sx mx ex], y as [sy|sy| |sy my ey]; simpl;
    rewrite <- ?negb_xorb_l; try reflexivity.
  apply binary_round_aux_opp.
Qed.

Lemma div_opp_l x y : (opp x / y)%float = opp (x / y)%float.
Proof.
  unfold PyFloat.div.
  destruct x as [sx|sx| |sx mx ex], y as [sy|sy| |sy my ey]; simpl;
    rewrite <- ?negb_xorb_l; try reflexivity.
  destruct (SFdiv_core_binary _ _ _ _ _ _) as [[mz ez] lz].
  apply binary_round_aux_opp.
Qed.

Lemma mul_comm x y : (x * y)%float = (y * x)%float.
Proof.
  unfold PyFloat.mul.
  destruct x as [sx|sx| |sx mx ex], y as [sy|sy| |sy my ey]; simpl;
    rewrite ?(xorb_comm sx sy); try reflexivity.
  by rewrite Pos.mul_comm, Z.add_comm.
Qed.

(** [x - y] and [y - x] are equal (both [+0], or both NaN) or opposite. *)
Lemma binary_normalize_opp m e :
  binary_normalize prec emax (- m) e false = binary_normalize prec emax m e false
  ∨ binary_normalize prec emax (- m) e false
    = opp (binary_normalize prec emax m e false).
Proof.
  destruct m as [|p|p]; simpl; [by left | right..].
  - apply (binary_round_opp false).
  - rewrite <- (opp_involutive (binary_round prec emax false p e)).
    f_equal. symmetry. apply (binary_round_opp false).
Qed.

Lemma sub_swap x y :
  (y - x)%float = (x - y)%float ∨ (y - x)%float = opp (x - y)%float.
Proof.
  unfold PyFloat.sub.
  destruct x as [sx|sx| |sx mx ex], y as [sy|sy| |sy my ey];
    try (by simpl; auto); try (by destruct sx; simpl; auto);
    try (by destruct sy; simpl; auto); try (by destruct sx, sy; simpl; auto).
  unfold SFsub. rewrite (Z.min_comm ey ex).
  set (a := cond_Zopp sx _). set (b := cond_Zopp sy _).
  replace (b - a) with (- (a - b)) by lia. apply binary_normalize_opp.
Qed.

(** ** Binary64 arithmetic: no overflow below the top binade *)

Lemma digits2_pos_lt (m : positive) : Zpos m < 2 ^ Zpos (digits2_pos m).
Proof.
  induction m as [m IH|m IH|]; simpl digits2_pos; [| |done];
    rewrite Pos2Z.inj_succ, Z.pow_succ_r by lia; lia.
Qed.

Lemma digits2_pos_le (m : positive) : 2 ^ (Zpos (digits2_pos m) - 1) ≤ Zpos m.
Proof.
  induction m as [m IH|m IH|]; simpl digits2_pos; [| |done];
    rewrite Pos2Z.inj_succ; replace (Z.succ (Zpos (digits2_pos m)) - 1)
      with (Z.succ (Zpos (digits2_pos m) - 1)) by lia;
    rewrite Z.pow_succ_r by lia; lia.
Qed.

Lemma Zdigits2_le_of_lt (x k : Z) : 0 ≤ x < 2 ^ k → 0 ≤ k → Zdigits2 x ≤ k.
Proof.
  intros [Hx0 Hx] Hk. destruct x as [|p|p]; simpl; [done | | lia].
  pose proof (digits2_pos_le p) as Hle.
  destruct (decide (Zpos (digits2_pos p) ≤ k)) as [|Hn]; [done | exfalso].
  assert (2 ^ k ≤ 2 ^ (Zpos (digits2_pos p) - 1)) by (apply Z.pow_le_mono_r; lia).
  lia.
Qed.

Lemma shr_1_m mrs : 0 ≤ shr_m mrs → shr_m (shr_1 mrs) = shr_m mrs / 2.
Proof.
  destruct mrs as [m r s]. simpl. intros Hm. rewrite <- Z.div2_div.
  destruct m as [|[p|p|]|p]; try reflexivity; lia.
Qed.

Lemma iter_shr_1_m p mrs :
  0 ≤ shr_m mrs → shr_m (SpecFloat.iter_pos shr_1 p mrs) = shr_m mrs / 2 ^ Zpos p.
Proof.
  revert mrs. induction p as [p IH|p IH|]; intros mrs Hm; simpl SpecFloat.iter_pos.
  - assert (0 ≤ shr_m (shr_1 mrs)) as H1
      by (rewrite shr_1_m by done; apply Z.div_pos; lia).
    assert (0 ≤ shr_m (SpecFloat.iter_pos shr_1 p (shr_1 mrs))) as H2
      by (rewrite IH by done; apply Z.div_pos; lia).
    rewrite !IH, shr_1_m by done.
    rewrite !Z.div_div by lia. f_equal.
    rewrite <- Z.pow_add_r, <- Z.pow_succ_r by lia. f_equal. lia.
  - assert (0 ≤ shr_m (SpecFloat.iter_pos shr_1 p mrs)) as H2
      by (rewrite IH by done; apply Z.div_pos; lia).
    rewrite !IH by done. rewrite Z.div_div by lia. f_equal.
    rewrite <- Z.pow_add_r by lia. f_equal. lia.
  - rewrite shr_1_m by done. done.
Qed.

Lemma round_nearest_even_bounds mx l :
  mx ≤ round_nearest_even mx l ≤ mx + 1.
Proof.
  destruct l as [|[]]; simpl; try lia. destruct (Z.even mx); lia.
Qed.

(** The two outcomes of [shr_fexp]: nothing is shifted, or the exponent is
    raised to the one the format prescribes. *)
Lemma shr_fexp_cases m e l :
  0 ≤ m →
  0 ≤ shr_m (shr_fexp prec emax m e l).1
  ∧ ((shr_fexp prec emax m e l).2 = e
       ∧ shr_m (shr_fexp prec emax m e l).1 = m
       ∧ fexp prec emax (Zdigits2 m + e) ≤ e
     ∨ (shr_fexp prec emax m e l).2 = fexp prec emax (Zdigits2 m + e)
       ∧ e < fexp prec emax (Zdigits2 m + e)
       ∧ shr_m (shr_fexp prec emax m e l).1
         = m / 2 ^ (fexp prec emax (Zdigits2 m + e) - e)).
Proof.
  intros Hm. unfold shr_fexp, shr.
  assert (shr_m (shr_record_of_loc m l) = m) as Hrec by (by destruct l as [|[]]).
  destruct (fexp prec emax (Zdigits2 m + e) - e) as [|p|p] eqn:Hn; simpl.
  - rewrite Hrec. split; [done |]. left. repeat split; lia.
  - rewrite iter_shr_1_m, Hrec by (by rewrite Hrec).
    split; [apply Z.div_pos; lia |]. right. repeat split; lia.
  - rewrite Hrec. split; [done |]. left. repeat split; lia.
Qed.

Lemma fexp_le k : fexp prec emax k ≤ Z.max (k - 53) (-1074).
Proof. unfold fexp, emin, prec, emax. lia. Qed.

Lemma fexp_ge k : k - 53 ≤ fexp prec emax k.
Proof. unfold fexp, emin, prec, emax. lia. Qed.

Lemma Zdigits2_lt m : 0 ≤ m → m < 2 ^ Zdigits2 m.
Proof.
  destruct m as [|p|p]; simpl; [done | | lia]. intros _. apply digits2_pos_lt.
Qed.

Lemma Zdigits2_nonneg m : 0 ≤ Zdigits2 m.
Proof. by destruct m. Qed.

(** After the first alignment the mantissa fits in 53 bits. *)
Lemma shr_fexp_mantissa m e l :
  0 ≤ m → shr_m (shr_fexp prec emax m e l).1 < 2 ^ 53.
Proof.
  intros Hm. pose proof (Zdigits2_lt m Hm) as Hlt.
  pose proof (Zdigits2_nonneg m) as Hd0.
  pose proof (fexp_ge (Zdigits2 m + e)) as Hge.
  destruct (shr_fexp_cases m e l Hm) as [_ [(_ & -> & Hle)|(_ & Hlt' & ->)]].
  - assert (2 ^ Zdigits2 m ≤ 2 ^ 53) by (apply Z.pow_le_mono_r; lia). lia.
  - set (p := fexp prec emax (Zdigits2 m + e) - e) in *.
    apply Z.div_lt_upper_bound; [apply Z.pow_pos_nonneg; lia |].
    rewrite <- Z.pow_add_r by lia.
    assert (2 ^ Zdigits2 m ≤ 2 ^ (p + 53)) by (apply Z.pow_le_mono_r; lia). lia.
Qed.

Lemma shr_fexp_exponent m e l :
  0 ≤ m → (shr_fexp prec emax m e l).2 ≤ Z.max e (Z.max (Zdigits2 m + e - 53) (-1074)).
Proof.
  intros Hm. pose proof (fexp_le (Zdigits2 m + e)).
  destruct (shr_fexp_cases m e l Hm) as [_ [(-> & _)|(-> & _)]]; lia.
Qed.

(** Rounding a mantissa and exponent well below the largest binade gives
    zero or a finite number. *)
Lemma binary_round_aux_finite s m e l :
  0 ≤ m → e ≤ 970 → Zdigits2 m + e ≤ 1023 →
  isfinite (binary_round_aux prec emax s m e l) = true.
Proof.
  intros Hm He Hd. unfold binary_round_aux.
  pose proof (shr_fexp_mantissa m e l Hm) as Hm1.
  pose proof (shr_fexp_exponent m e l Hm) as He1.
  pose proof (proj1 (shr_fexp_cases m e l Hm)) as Hm0.
  destruct (shr_fexp prec emax m e l) as [mrs' e']. simpl in Hm1, He1, Hm0.
  pose proof (round_nearest_even_bounds (shr_m mrs') (loc_of_shr_record mrs')) as Hr.
  set (m1 := round_nearest_even (shr_m mrs') (loc_of_shr_record mrs')) in *.
  assert (0 ≤ m1) as Hm1' by lia.
  assert (Zdigits2 m1 ≤ 54) as Hd1.
  { apply Zdigits2_le_of_lt; [|lia]. change (2 ^ 54) with (2 * 2 ^ 53). lia. }
  pose proof (shr_fexp_exponent m1 e' loc_Exact Hm1') as He2.
  pose proof (proj1 (shr_fexp_cases m1 e' loc_Exact Hm1')) as Hm2.
  destruct (shr_fexp prec emax m1 e' loc_Exact) as [mrs'' e'']. simpl in He2, Hm2.
  destruct (shr_m mrs'') as [|q|q]; [done | | lia].
  assert (e'' ≤ 971) as He'' by lia.
  change (emax - prec) with 971. by rewrite (proj2 (Z.leb_le _ _) He'').
Qed.

Lemma digits2_pos_mul (a b : positive) :
  Zpos (digits2_pos (a * b)) ≤ Zpos (digits2_pos a) + Zpos (digits2_pos b).
Proof.
  pose proof (digits2_pos_lt a). pose proof (digits2_pos_lt b).
  apply (Zdigits2_le_of_lt (Zpos (a * b))); [|lia].
  split; [lia |]. rewrite Z.pow_add_r, Pos2Z.inj_mul by lia.
  apply Z.mul_lt_mono_nonneg; lia.
Qed.

(** A product of doubles with small enough exponents does not overflow. *)
Lemma mul_finite j k x y :
  below j x → below k y → j + k ≤ 917 → isfinite (x * y)%float = true.
Proof.
  destruct x as [sx|sx| |sx mx ex], y as [sy|sy| |sy my ey]; try done.
  intros [Hdx Hex] [Hdy Hey] Hjk. apply binary_round_aux_finite; [lia | lia |].
  pose proof (digits2_pos_mul mx my). simpl. lia.
Qed.

Lemma valid_below x : valid x = true → isfinite x = true → below 971 x.
Proof.
  destruct x as [s|s| |s m e]; try done. intros Hv _. simpl.
  unfold valid, valid_binary, bounded, canonical_mantissa in Hv.
  apply andb_true_iff in Hv as [Hc He]. apply Z.eqb_eq in Hc. apply Z.leb_le in He.
  pose proof (fexp_ge (Zpos (digits2_pos m) + e)).
  change (emax - prec) with 971 in He. lia.
Qed.

Lemma of_int_1 : of_int 1 = S754_finite false 4503599627370496 (-52).
Proof. by vm_compute. Qed.

Lemma unit_below x :
  valid x = true → leb (abs x) (of_int 1) = true → below (-52) x.
Proof.
  rewrite of_int_1. destruct x as [s|s| |s m e]; try done. intros Hv Hle.
  destruct (valid_below _ Hv eq_refl) as [Hd _]. split; [done |].
  unfold leb, SFleb, abs, SFabs, SFcompare in Hle.
  destruct (Z.compare_spec e (-52)); [lia | lia | done].
Qed.

Lemma degToRad_below : below (-58) degToRad.
Proof. by vm_compute. Qed.

Lemma radians_finite x : valid x = true → isfinite x = true → isfinite (radians x) = true.
Proof.
  intros Hv Hf. eapply mul_finite; [by apply valid_below | apply degToRad_below | lia].
Qed.

(** ** Binary64 arithmetic: cancellation *)

Lemma sub_diag x : isfinite x = true → (x - x)%float = pos_zero.
Proof.
  destruct x as [[]|s| |s m e]; try done. intros _.
  unfold PyFloat.sub, SFsub. by rewrite Z.sub_diag.
Qed.

Lemma add_zero_zero s : (pos_zero + S754_zero s)%float = pos_zero.
Proof. by destruct s. Qed.

Lemma mul_zero_r x : isfinite x = true → iszero (x * pos_zero)%float = true.
Proof. by destruct x. Qed.

(** ** The [math] wrappers *)

Section MathFacts.
Variable M : libm.

Lemma math_1_Err func x e : math_1 func x = Err e → e = math_domain_error.
Proof.
  unfold math_1. destruct (isnan (func x) && negb (isnan x)); [by intros [= <-] |].
  destruct (isinf (func x) && isfinite x); [by intros [= <-] | done].
Qed.

Lemma math_1_opp func x :
  func (opp x) = opp (func x) → math_1 func (opp x) = opp <$> math_1 func x.
Proof.
  intros Hodd. unfold math_1. rewrite Hodd.
  replace (isnan (opp (func x))) with (isnan (func x)) by (by destruct (func x)).
  replace (isinf (opp (func x))) with (isinf (func x)) by (by destruct (func x)).
  replace (isnan (opp x)) with (isnan x) by (by destruct x).
  replace (isfinite (opp x)) with (isfinite x) by (by destruct x).
  destruct (isnan (func x) && negb (isnan x)); [done |].
  by destruct (isinf (func x) && isfinite x).
Qed.

(** A result of magnitude at most 1 passes the checks of [math_1]. *)
Lemma math_1_unit func x :
  leb (abs (func x)) (of_int 1) = true → math_1 func x = Ok (func x).
Proof. unfold math_1. by destruct (func x) as [[]|[]| |[] m e]. Qed.

Lemma float_pow2_opp v : float_pow2 M (opp v) = float_pow2 M v.
Proof. destruct v as [[]|[]| |[] m e]; reflexivity. Qed.

Lemma sin_squared_opp x :
  sin_odd M → sin_squared M (opp x) = sin_squared M x.
Proof.
  intros Hodd. unfold sin_squared, math_sin. rewrite math_1_opp by apply Hodd.
  destruct (math_1 (c_sin M) x) as [s|e]; [|done]. apply float_pow2_opp.
Qed.

(** The squared sine of half the difference does not see the order of the
    two coordinates. *)
Lemma sin_squared_swap x y :
  sin_odd M →
  sin_squared M (radians (y - x) / of_int 2)%float
  = sin_squared M (radians (x - y) / of_int 2)%float.
Proof.
  intros Hodd. destruct (sub_swap x y) as [->| ->]; [done |].
  unfold radians. rewrite mul_opp_l, div_opp_l. by apply sin_squared_opp.
Qed.


(** [haversine] in terms of the squared sines. *)
Lemma haversine_unfold lat1 lon1 lat2 lon2 :
  haversine M lat1 lon1 lat2 lon2
  = (h_lat ← sin_squared M (radians (lat2 - lat1) / of_int 2)%float;
     c1 ← math_cos M (radians lat1);
     c2 ← math_cos M (radians lat2);
     h_lon ← sin_squared M (radians (lon2 - lon1) / of_int 2)%float;
     q1 ← math_sqrt (h_lat + c1 * c2 * h_lon)%float;
     q2 ← math_sqrt (of_int 1 - (h_lat + c1 * c2 * h_lon))%float;
     t ← math_atan2 M q1 q2;
     Ok (of_int (6371 * 2) * t)%float).
Proof.
  unfold haversine, sin_squared.
  destruct (math_sin M (radians (lat2 - lat1) / of_int 2)%float) as [s1|];
    [cbn | reflexivity].
  destruct (float_pow2 M s1) as [p1|]; [cbn | reflexivity].
  destruct (math_cos M (radians lat1)) as [c1|]; [cbn | reflexivity].
  destruct (math_cos M (radians lat2)) as [c2|]; [cbn | reflexivity].
  destruct (math_sin M (radians (lon2 - lon1) / of_int 2)%float) as [s2|];
    reflexivity.
Qed.

Lemma haversine_swap lat1 lon1 lat2 lon2 :
  sin_odd M →
  haversine M lat1 lon1 lat2 lon2 = haversine M lat2 lon2 lat1 lon1.
Proof.
  intros Hodd. rewrite !haversine_unfold.
  rewrite (sin_squared_swap lat1 lat2 Hodd), (sin_squared_swap lon1 lon2 Hodd).
  destruct (sin_squared M (radians (lat1 - lat2) / of_int 2)%float) as [h_lat|];
    [cbn | reflexivity].
  destruct (math_cos M (radians lat1)) as [c1|e1] eqn:H1,
           (math_cos M (radians lat2)) as [c2|e2] eqn:H2; cbn; try reflexivity.
  - by rewrite (mul_comm c2 c1).
  - apply math_1_Err in H1, H2. by subst.
Qed.

(** From a finite point to itself. *)
Lemma haversine_diag lat lon :
  sin_zero M → cos_unit M →
  valid lat = true → isfinite lat = true → isfinite lon = true →
  haversine M lat lon lat lon = Ok pos_zero.
Proof.
  intros Hsz Hcos Hv Hlat Hlon. rewrite haversine_unfold, !sub_diag by done.
  change (radians pos_zero / of_int 2)%float with pos_zero.
  assert (sin_squared M pos_zero = Ok pos_zero) as ->.
  { unfold sin_squared, math_sin, math_1. by rewrite Hsz. }
  simpl. destruct (Hcos (radians lat) (radians_finite _ Hv Hlat)) as [Hcv Hc1].
  unfold math_cos. rewrite (math_1_unit (c_cos M) (radians lat)) by done. cbn.
  set (c := c_cos M (radians lat)) in *.
  assert (isfinite (c * c)%float = true) as Hcc
    by (eapply mul_finite; [by apply unit_below.. | lia]).
  pose proof (mul_zero_r _ Hcc) as Hz.
  destruct (c * c * pos_zero)%float as [s| | |]; try done.
  rewrite add_zero_zero. reflexivity.
Qed.

(** NaN coordinates give a NaN distance when [sin] and [cos] map NaN to
    NaN. *)
Lemma haversine_nan_point lon :
  c_sin M nan = nan → c_cos M nan = nan → sin_zero M → isfinite lon = true →
  haversine M nan lon nan lon = Ok nan.
Proof.
  intros Hs Hc Hsz Hlon. unfold haversine. rewrite sub_diag by done.
  change (radians (nan - nan) / of_int 2)%float with nan.
  change (radians pos_zero / of_int 2)%float with pos_zero.
  change (radians nan) with nan.
  unfold math_sin, math_cos, math_1. rewrite Hs, Hc, Hsz. reflexivity.
Qed.

Lemma haversine_nan_latitude lat lon :
  c_sin M nan = nan → c_cos M nan = nan → sin_zero M → cos_unit M →
  valid lat = true → isfinite lat = true → isfinite lon = true →
  haversine M lat lon nan lon = Ok nan.
Proof.
  intros Hs Hc Hsz Hcos Hv Hlat Hlon. unfold haversine. rewrite sub_diag by done.
  replace (nan - lat)%float with nan by (by destruct lat).
  change (radians nan / of_int 2)%float with nan.
  change (radians pos_zero / of_int 2)%float with pos_zero.
  change (radians nan) with nan.
  destruct (Hcos (radians lat) (radians_finite _ Hv Hlat)) as [_ Hc1].
  unfold math_cos.
  rewrite (math_1_unit (c_cos M) (radians lat)) by done.
  unfold math_sin, math_cos, math_1. rewrite Hs, Hc, Hsz. cbn.
  replace (c_cos M (radians lat) * nan)%float with nan
    by (destruct (c_cos M (radians lat)); reflexivity).
  reflexivity.
Qed.

(** An infinite latitude makes the first sine fail when [sin] maps
    infinity to NaN. *)
Lemma haversine_infinite_latitude lat lon lon' :
  isnan (c_sin M pos_inf) = true → isfinite lat = true →
  haversine M lat lon pos_inf lon' = Err math_domain_error.
Proof.
  intros Hs Hlat. unfold haversine.
  replace (pos_inf - lat)%float with pos_inf by (by destruct lat).
  change (radians pos_inf / of_int 2)%float with pos_inf.
  unfold math_sin, math_1. by rewrite Hs.
Qed.

End MathFacts.

(** ** The small C library conforms *)

Lemma saturate_unit r :
  valid (RefLibm.saturate r) = true
  ∧ leb (abs (RefLibm.saturate r)) (of_int 1) = true.
Proof.
  unfold RefLibm.saturate.
  destruct (valid r && leb (abs r) (of_int 1)) eqn:H; [|done].
  by apply andb_true_iff in H.
Qed.

Lemma ref_sin_zero : sin_zero RefLibm.lib.
Proof. reflexivity. Qed.

Lemma ref_sin_odd : sin_odd RefLibm.lib.
Proof.
  intros [s|s| |s m e]; simpl; try reflexivity.
  destruct s; simpl; [by rewrite opp_involutive | done].
Qed.

Lemma ref_cos_unit : cos_unit RefLibm.lib.
Proof.
  intros [s|s| |s m e]; try discriminate; intros _; simpl.
  - by vm_compute.
  - apply saturate_unit.
Qed.

(** ** Claims on the loader *)

(** C4: when every required column is present, [load_blood_banks] returns
    the records of the rows whose construction succeeds, one record per such
    row and in the order of the rows; the rows whose construction fails leave
    nothing behind.  The kept rows form a sublist of the table's rows, each
    kept row has cells for latitude and longitude that [float] converts to
    the record's coordinates, and there are at most as many records as
    rows. *)
Theorem load_order_preserving_subsequence (T : float_text) (df : DataFrame) :
  (∀ c, c ∈ col_mapping_values → c ∈ stripped_columns df) →
  ∃ banks,
    load_blood_banks T (Frame df) = Ok banks
    ∧ Forall2 (λ r b, make_bank T (stripped_columns df) (fill_row df r) = Ok b)
        (filter (λ r, is_ok (make_bank T (stripped_columns df) (fill_row df r))) (rows df))
        banks
    ∧ filter (λ r, is_ok (make_bank T (stripped_columns df) (fill_row df r))) (rows df)
        `sublist_of` rows df
    ∧ Forall2 (λ r b, ∃ v_lat v_lon,
          row_get (stripped_columns df) r "latitude" = Ok v_lat
          ∧ py_float T v_lat = Ok (latitude b)
          ∧ row_get (stripped_columns df) r "longitude" = Ok v_lon
          ∧ py_float T v_lon = Ok (longitude b))
        (filter (λ r, is_ok (make_bank T (stripped_columns df) (fill_row df r))) (rows df))
        banks
    ∧ (length banks ≤ length (rows df))%nat.
Proof.
  intros Hcols. apply missing_cols_nil in Hcols.
  eexists. split; [by apply load_frame_ok |].
  assert (Forall2 (λ r b, make_bank T (stripped_columns df) (fill_row df r) = Ok b)
    (filter (λ r, is_ok (make_bank T (stripped_columns df) (fill_row df r))) (rows df))
    (omap (bank_of_row T (stripped_columns df)) (filled_rows df))) as Hall
    by apply omap_filter_banks.
  split; [done |]. split; [apply sublist_filter |]. split.
  - eapply Forall2_impl; [exact Hall |]. intros r b Hb.
    apply make_bank_Ok_inv in Hb
      as (? & v_lat & v_lon & _ & _ & _ & _ & _ & _ & Hlat & Hflat & Hlon & Hflon & _).
    rewrite row_get_fill_row in Hlat, Hlon by done. eauto 10.
  - unfold filled_rows. etrans; [apply length_omap_le |]. by rewrite length_fmap.
Qed.

Lemma load_order_preserving_subsequence_witness :
  ∃ banks,
    load_blood_banks RefLibm.text (Frame Sample.table) = Ok banks
    ∧ Forall2 (λ r b, make_bank RefLibm.text (stripped_columns Sample.table)
                        (fill_row Sample.table r) = Ok b)
        [Sample.delhi; Sample.mumbai] banks
    ∧ length banks = 2%nat.
Proof.
  destruct (load_order_preserving_subsequence RefLibm.text Sample.table)
    as (banks & Hload & Hall & _).
  - intros c Hc. vm_compute in Hc.
    repeat (apply elem_of_cons in Hc as [->|Hc];
            [apply (bool_decide_unpack _); vm_compute; exact I |]).
    by apply elem_of_nil in Hc.
  - exists banks. split; [done |]. split; [exact Hall |].
    vm_compute in Hload. by injection Hload as <-.
Defined.

(** C5: when a required column is absent from the stripped header,
    [load_blood_banks] raises; the error reports exactly the required columns
    that are absent, in the order of [col_mapping], and no record is
    returned. *)
Theorem load_missing_column_fails (T : float_text) (df : DataFrame) :
  (∃ c, c ∈ col_mapping_values ∧ c ∉ stripped_columns df) →
  load_blood_banks T (Frame df)
  = Err (HTTPException 500
           ("CSV Error: CSV missing required columns: " ++ join ", " (missing_cols df)))
  ∧ (∀ c, c ∈ missing_cols df ↔ c ∈ col_mapping_values ∧ c ∉ stripped_columns df)
  ∧ missing_cols df `sublist_of` col_mapping_values
  ∧ ∀ banks, load_blood_banks T (Frame df) ≠ Ok banks.
Proof.
  intros (c & Hc & Hn).
  assert (c ∈ missing_cols df) as Hin by (apply list_elem_of_filter; done).
  assert (load_blood_banks T (Frame df)
    = Err (HTTPException 500
             ("CSV Error: CSV missing required columns: " ++ join ", " (missing_cols df))))
    as Hload.
  { unfold load_blood_banks, load_body.
    destruct (missing_cols df); [by apply elem_of_nil in Hin | done]. }
  split; [done |]. split; [|split].
  - intros c'. unfold missing_cols. rewrite list_elem_of_filter. tauto.
  - apply sublist_filter.
  - intros banks. by rewrite Hload.
Qed.

Lemma load_missing_column_fails_witness :
  load_blood_banks RefLibm.text (Frame Sample.no_state_column)
  = Err (HTTPException 500 "CSV Error: CSV missing required columns: State, longitude").
Proof.
  refine (proj1 (load_missing_column_fails RefLibm.text Sample.no_state_column _)).
  exists "State". split; apply (bool_decide_unpack _); vm_compute; exact I.
Defined.






(** ** Claims on the distance *)


(** C7, amended: with a C library whose [sin] is odd and maps [+0] to [+0]
    and whose [cos] stays within [-1, 1] on finite arguments, the distance
    from a point with finite coordinates to itself is [+0.0], and
    [haversine(a, b)] and [haversine(b, a)] have the same outcome for every
    pair of points: the same float or the same exception. *)
Theorem haversine_zero_and_symmetric (M : libm) :
  sin_zero M → sin_odd M → cos_unit M →
  (∀ lat lon,
     valid lat = true → isfinite lat = true → isfinite lon = true →
     haversine M lat lon lat lon = Ok pos_zero)
  ∧ (∀ lat1 lon1 lat2 lon2,
       haversine M lat1 lon1 lat2 lon2 = haversine M lat2 lon2 lat1 lon1).
Proof.
  intros Hsz Hodd Hcos. split.
  - intros lat lon. by apply haversine_diag.
  - intros lat1 lon1 lat2 lon2. by apply haversine_swap.
Qed.

Lemma haversine_zero_and_symmetric_witness :
  haversine RefLibm.lib (of_int 28) (of_int 77) (of_int 28) (of_int 77) = Ok pos_zero
  ∧ haversine RefLibm.lib (of_int 28) (of_int 77) (of_int 19) (of_int 72)
    = haversine RefLibm.lib (of_int 19) (of_int 72) (of_int 28) (of_int 77).
Proof.
  destruct (haversine_zero_and_symmetric RefLibm.lib
              ref_sin_zero ref_sin_odd ref_cos_unit) as [Hdiag Hswap].
  split; [apply Hdiag; reflexivity | apply Hswap].
Defined.

(** C7 as stated fails at a point with a NaN coordinate: the distance from
    it to itself is NaN, which is not equal to 0.  This holds for every C
    library that maps NaN to NaN. *)
Lemma haversine_nan_point_not_zero :
  haversine RefLibm.lib nan pos_zero nan pos_zero = Ok nan
  ∧ eqb nan pos_zero = false
  ∧ (∀ M : libm, c_sin M nan = nan → c_cos M nan = nan → sin_zero M →
       haversine M nan pos_zero nan pos_zero = Ok nan).
Proof.
  split; [by vm_compute |]. split; [done |].
  intros M Hs Hc Hsz. by apply haversine_nan_point.
Qed.

(** ** Claims on the ranking *)

(** C8: no record returned by [load_blood_banks] or by [GET
    /all-blood-banks] has a distance, and every record returned by [POST
    /nearby] carries the distance [haversine] computes from the query point
    to the record's coordinates. *)
Theorem distance_only_from_ranking (M : libm) (T : float_text)
    (src : csv_source) (location : Location) :
  (∀ banks b, load_blood_banks T src = Ok banks → b ∈ banks → distance b = None)
  ∧ (∀ banks b, get_all_blood_banks T src = Ok banks → b ∈ banks → distance b = None)
  ∧ (∀ out b, get_nearby M T src location = Ok out → b ∈ out →
       ∃ d, haversine M (loc_latitude location) (loc_longitude location)
              (latitude b) (longitude b) = Ok d
            ∧ distance b = Some d).
Proof.
  assert (∀ banks b, load_blood_banks T src = Ok banks → b ∈ banks → distance b = None)
    as Hload.
  { intros banks b H Hb. destruct (load_Ok_inv T _ _ H) as (df & -> & _ & _).
    destruct (load_elem_of_inv T _ _ _ H Hb) as (r & _ & Hmk).
    by destruct (make_bank_Ok_inv T _ _ _ Hmk)
      as (? & ? & ? & _ & _ & _ & _ & _ & _ & _ & _ & _ & _ & ?). }
  split; [done |]. split.
  - intros banks b H Hb. unfold get_all_blood_banks in H.
    rewrite or_http_500_Ok in H. by eapply Hload.
  - intros out b H Hb.
    apply get_nearby_Ok_inv in H as (banks & keyed & _ & Hk & ->).
    apply keyed_measured in Hk as [Hm _].
    apply elem_of_take in Hb as (i & Hb & _).
    apply list_elem_of_lookup_2 in Hb. rewrite rank_perm in Hb.
    apply list_elem_of_lookup in Hb as [j Hj].
    destruct (Forall2_lookup_r _ _ _ _ _ Hm Hj) as (b0 & _ & d & Hd & ->).
    exists d. done.
Qed.

Lemma distance_only_from_ranking_witness :
  distance Sample.bank_mumbai = None
  ∧ ∃ d, haversine RefLibm.lib
           (loc_latitude Sample.origin) (loc_longitude Sample.origin)
           (latitude Sample.near_mumbai) (longitude Sample.near_mumbai) = Ok d
         ∧ distance Sample.near_mumbai = Some d.
Proof.
  destruct (distance_only_from_ranking RefLibm.lib RefLibm.text
              (Frame Sample.table) Sample.origin) as (Hload & _ & Hnear).
  split.
  - apply (Hload [Sample.bank_delhi; Sample.bank_mumbai] Sample.bank_mumbai);
      [vm_compute; reflexivity | apply list_elem_of_further, list_elem_of_here].
  - apply (Hnear Sample.nearest Sample.near_mumbai);
      [vm_compute; reflexivity | apply list_elem_of_further, list_elem_of_here].
Defined.

(** C3, amended: when the distance of every loaded record can be computed,
    [POST /nearby] returns [min 10 n] of the [n] loaded records, each with its
    distance and none twice: all of them when fewer than ten were loaded, and,
    when no distance is NaN, the first ten of the ranked sequence, which is the
    arrangement of the loaded records in ascending order of distance with
    records at the same distance in the order of the load.  When the distance
    of a loaded record cannot be computed, the request fails with status 500
    and no record is returned. *)
Theorem nearby_returns_first_ten (M : libm) (T : float_text) (src : csv_source)
    (location : Location) (banks : list BloodBank) :
  load_blood_banks T src = Ok banks →
  ((∀ b, b ∈ banks →
      ∃ d, haversine M (loc_latitude location) (loc_longitude location)
             (latitude b) (longitude b) = Ok d) →
   ∃ marked out,
     Forall2 (measured M location) banks marked
     ∧ get_nearby M T src location = Ok out
     ∧ length out = (10 `min` length banks)%nat
     ∧ out ⊆+ marked
     ∧ ((length banks < 10)%nat → out ≡ₚ marked)
     ∧ ((∀ b, b ∈ banks →
           haversine M (loc_latitude location) (loc_longitude location)
             (latitude b) (longitude b) ≠ Ok nan) →
        ∃ ranked,
          ranked ≡ₚ marked
          ∧ StronglySorted distance_le ranked
          ∧ (∀ d, filter (has_distance d) ranked = filter (has_distance d) marked)
          ∧ out = take 10 ranked
          ∧ ((length banks < 10)%nat → out = ranked)))
  ∧ ((∃ b, b ∈ banks
           ∧ is_ok (haversine M (loc_latitude location) (loc_longitude location)
                      (latitude b) (longitude b)) = false) →
     ∃ detail,
       get_nearby M T src location = Err (HTTPException 500 detail)
       ∧ ∀ out, get_nearby M T src location ≠ Ok out).
Proof.
  intros Hload. split.
  - intros Hdist.
    destruct (mapM_Ok_total (with_distance M location) banks) as [keyed Hk].
    { intros b Hb. by apply with_distance_total, Hdist. }
    destruct (keyed_measured M _ _ _ Hk) as [Hm Hkd].
    pose proof (length_rank M _ _ _ Hk) as Hlen.
    exists keyed.*2, (take 10 (rank keyed)).
    split; [done |].
    split; [by apply (get_nearby_Ok M T src location banks keyed) |].
    split; [by rewrite length_take, Hlen |].
    split; [rewrite <- (rank_perm keyed); apply sublist_submseteq, sublist_take |].
    split; [intros Hlt; rewrite take_ge by lia; apply rank_perm |].
    intros Hnan. exists (rank keyed).
    split; [apply rank_perm |].
    split; [apply rank_sorted; [done | by eapply keyed_not_nan] |].
    split; [intros d; by apply rank_stable |].
    split; [done |]. intros Hlt. apply take_ge. lia.
  - intros (b & Hb & Hfail).
    assert (∃ detail, get_nearby M T src location = Err (HTTPException 500 detail))
      as [detail Hget].
    { unfold get_nearby. rewrite Hload. cbn [mbind result_bind].
      assert (is_ok (mapM (with_distance M location) banks) = false) as Hm.
      { apply (mapM_Err_elem_of _ _ b Hb). unfold with_distance.
        by destruct (haversine M _ _ _ _). }
      destruct (mapM (with_distance M location) banks) as [|e]; [done |].
      cbn. eauto. }
    exists detail. split; [done |]. intros out. by rewrite Hget.
Qed.

Lemma nearby_returns_first_ten_witness :
  (∃ marked out ranked,
     Forall2 (measured RefLibm.lib Sample.origin) Sample.district_banks marked
     ∧ get_nearby RefLibm.lib RefLibm.text (Frame Sample.district) Sample.origin
       = Ok out
     ∧ length out = 10%nat
     ∧ out ⊆+ marked
     ∧ ranked ≡ₚ marked
     ∧ StronglySorted distance_le ranked
     ∧ (∀ d, filter (has_distance d) ranked = filter (has_distance d) marked)
     ∧ out = take 10 ranked
     ∧ id <$> out = ["2"; "7"; "4"; "9"; "12"; "8"; "11"; "1"; "5"; "6"])
  ∧ (∃ detail,
       get_nearby RefLibm.lib RefLibm.text (Frame Sample.with_infinite) Sample.origin
       = Err (HTTPException 500 detail)).
Proof.
  split.
  - assert (load_blood_banks RefLibm.text (Frame Sample.district)
            = Ok Sample.district_banks) as Hload by (vm_compute; reflexivity).
    destruct (nearby_returns_first_ten RefLibm.lib RefLibm.text (Frame Sample.district)
                Sample.origin Sample.district_banks Hload) as [Hfirst _].
    destruct Hfirst as (marked & out & Hm & Hget & Hlen & Hsub & _ & Hrank).
    { intros b Hb.
      repeat (apply elem_of_cons in Hb as [->|Hb];
              [eexists; vm_compute; reflexivity |]).
      apply elem_of_nil in Hb. destruct Hb. }
    destruct Hrank as (ranked & Hp & Hs & Hst & Hout & _).
    { intros b Hb.
      repeat (apply elem_of_cons in Hb as [->|Hb]; [vm_compute; discriminate |]).
      apply elem_of_nil in Hb. destruct Hb. }
    exists marked, out, ranked.
    split; [exact Hm |]. split; [exact Hget |]. split; [exact Hlen |].
    split; [exact Hsub |]. split; [exact Hp |]. split; [exact Hs |].
    split; [exact Hst |]. split; [exact Hout |].
    assert (Ok out = get_nearby RefLibm.lib RefLibm.text (Frame Sample.district)
                       Sample.origin) as Hval by (symmetry; exact Hget).
    vm_compute in Hval. injection Hval as ->. vm_compute. reflexivity.
  - assert (load_blood_banks RefLibm.text (Frame Sample.with_infinite)
            = Ok [Sample.pole]) as Hload by (vm_compute; reflexivity).
    destruct (nearby_returns_first_ten RefLibm.lib RefLibm.text
                (Frame Sample.with_infinite) Sample.origin [Sample.pole] Hload)
      as [_ Hfail].
    destruct Hfail as (detail & Hget & _).
    { exists Sample.pole. split; [apply list_elem_of_here | vm_compute; reflexivity]. }
    exists detail. exact Hget.
Defined.

(** C3 as stated fails on a table with a row whose latitude is infinite:
    the row is loaded, the sine of the latitude difference is a domain
    error, and [POST /nearby] answers with an error instead of one record.
    This holds for every C library whose [sin] maps infinity to NaN. *)
Lemma nearby_fails_on_infinite_latitude :
  load_blood_banks RefLibm.text (Frame Sample.with_infinite) = Ok [Sample.pole]
  ∧ get_nearby RefLibm.lib RefLibm.text (Frame Sample.with_infinite) Sample.origin
    = Err (HTTPException 500 "math domain error")
  ∧ (∀ (M : libm) (T : float_text),
       isnan (c_sin M pos_inf) = true →
       get_nearby M T (Frame Sample.with_infinite) Sample.origin
       = Err (HTTPException 500 "math domain error")).
Proof.
  split; [by vm_compute |]. split; [by vm_compute |].
  intros M T Hs. unfold get_nearby.
  change (load_blood_banks T (Frame Sample.with_infinite)) with (Ok [Sample.pole]).
  assert (isfinite (of_int 28) = true) as Hfin by (by vm_compute).
  cbn. unfold with_distance. cbn.
  by rewrite (haversine_infinite_latitude M (of_int 28) (of_int 77) (of_int 0) Hs Hfin).
Qed.

(** C1, amended: when no computed distance is NaN, the sequence [POST
    /nearby] returns is sorted by distance, each record no farther than every
    later one, and the returned records that are at the same distance appear
    in the order in which they were loaded: they are the first of the loaded
    records at that distance, in that order. *)
Theorem nearby_sorted_and_stable (M : libm) (T : float_text) (src : csv_source)
    (location : Location) (banks out : list BloodBank) :
  load_blood_banks T src = Ok banks →
  get_nearby M T src location = Ok out →
  (∀ b, b ∈ banks →
     haversine M (loc_latitude location) (loc_longitude location)
       (latitude b) (longitude b) ≠ Ok nan) →
  ∃ marked,
    Forall2 (measured M location) banks marked
    ∧ StronglySorted distance_le out
    ∧ (∀ d, filter (has_distance d) out `prefix_of` filter (has_distance d) marked).
Proof.
  intros Hload Hget Hnan.
  apply get_nearby_Ok_inv in Hget as (banks' & keyed & Hload' & Hk & ->).
  rewrite Hload in Hload'. injection Hload' as <-.
  destruct (keyed_measured M _ _ _ Hk) as [Hm Hkd].
  exists keyed.*2. split; [done |]. split.
  - apply StronglySorted_take, rank_sorted; [done | by eapply keyed_not_nan].
  - intros d. rewrite <- (rank_stable d keyed Hkd). apply filter_take_prefix.
Qed.

Lemma nearby_sorted_and_stable_witness :
  ∃ out marked,
    get_nearby RefLibm.lib RefLibm.text (Frame Sample.district) Sample.origin = Ok out
    ∧ id <$> out = ["2"; "7"; "4"; "9"; "12"; "8"; "11"; "1"; "5"; "6"]
    ∧ id <$> filter (has_distance pos_zero) out = ["2"; "7"]
    ∧ Forall2 (measured RefLibm.lib Sample.origin) Sample.district_banks marked
    ∧ StronglySorted distance_le out
    ∧ (∀ d, filter (has_distance d) out `prefix_of` filter (has_distance d) marked).
Proof.
  assert (load_blood_banks RefLibm.text (Frame Sample.district)
          = Ok Sample.district_banks) as Hload by (vm_compute; reflexivity).
  assert (∃ out,
    get_nearby RefLibm.lib RefLibm.text (Frame Sample.district) Sample.origin = Ok out
    ∧ id <$> out = ["2"; "7"; "4"; "9"; "12"; "8"; "11"; "1"; "5"; "6"]
    ∧ id <$> filter (has_distance pos_zero) out = ["2"; "7"])
    as (out & Hget & Hids & Htie).
  { eexists. split; [vm_compute; reflexivity |]. split; vm_compute; reflexivity. }
  destruct (nearby_sorted_and_stable RefLibm.lib RefLibm.text (Frame Sample.district)
              Sample.origin Sample.district_banks out Hload Hget)
    as (marked & Hm & Hs & Hst).
  { intros b Hb.
    repeat (apply elem_of_cons in Hb as [->|Hb]; [vm_compute; discriminate |]).
    apply elem_of_nil in Hb. destruct Hb. }
  exists out, marked.
  split; [exact Hget |]. split; [exact Hids |]. split; [exact Htie |].
  split; [exact Hm |]. split; [exact Hs | exact Hst].
Defined.

(** C1 as stated fails on a table with two rows without latitude: both
    rows are loaded with a NaN latitude, both distances are NaN, and the two
    records returned are not in non-decreasing order, [NaN <= NaN] being
    false; no arrangement of the two records is.  This holds for every C
    library that maps NaN to NaN. *)
Lemma nearby_nan_not_sorted :
  (∃ out,
     get_nearby RefLibm.lib RefLibm.text (Frame Sample.two_unlocated) Sample.camp_site
     = Ok out
     ∧ out = [set_distance nan (Sample.camp "5"); set_distance nan (Sample.camp "6")]
     ∧ ¬ Sorted distance_le out
     ∧ ∀ l, l ≡ₚ out → ¬ Sorted distance_le l)
  ∧ (∀ (M : libm) (T : float_text),
       c_sin M nan = nan → c_cos M nan = nan → sin_zero M → cos_unit M →
       ∃ out,
         get_nearby M T (Frame Sample.two_unlocated) Sample.camp_site = Ok out
         ∧ ¬ Sorted distance_le out).
Proof.
  assert (¬ Sorted distance_le
            [set_distance nan (Sample.camp "5"); set_distance nan (Sample.camp "6")])
    as Hns.
  { intros Hs. apply Sorted_inv in Hs as [_ Hhd]. apply HdRel_inv in Hhd.
    destruct Hhd as (dx & dy & [= <-] & [= <-] & Hle). discriminate. }
  split.
  - eexists. split; [vm_compute; reflexivity |]. split; [done |]. split; [done |].
    intros l Hl Hs. pose proof (Permutation_length Hl) as Hlen.
    destruct l as [|x [|y [|z l]]]; try discriminate.
    assert (x ∈ [set_distance nan (Sample.camp "5"); set_distance nan (Sample.camp "6")])
      as Hx by (rewrite <- Hl; apply list_elem_of_here).
    apply Sorted_inv in Hs as [_ Hhd]. apply HdRel_inv in Hhd.
    destruct Hhd as (dx & dy & Hdx & _ & Hle).
    assert (dx = nan) as ->.
    { repeat (apply elem_of_cons in Hx as [->|Hx]; [by injection Hdx |]).
      by apply elem_of_nil in Hx. }
    discriminate.
  - intros M T Hs Hc Hsz Hcos. eexists. split; [|exact Hns].
    unfold get_nearby.
    change (load_blood_banks T (Frame Sample.two_unlocated))
      with (Ok [Sample.camp "5"; Sample.camp "6"]).
    assert (valid (of_int 28) = true ∧ isfinite (of_int 28) = true
            ∧ isfinite (of_int 78) = true) as (Hv & Hf28 & Hf78) by (by vm_compute).
    cbn. unfold with_distance. cbn.
    rewrite (haversine_nan_latitude M (of_int 28) (of_int 78)) by done.
    reflexivity.
Qed.

(** ** Claims on the route proxy *)

(** C6, what the code does: when [GRAPHHOPPER_API_KEY] is not set in the
    environment, [GET /route] sends one request to the routing service, with
    the key written in the source as its credential. *)
Theorem route_without_credential_calls_out (T : float_text)
    (http_get : request → result response) (environ : gmap string string)
    (start_lat start_lon end_lat end_lon : float) :
  environ !! "GRAPHHOPPER_API_KEY" = None →
  ∃ req,
    (get_route T http_get environ start_lat start_lon end_lat end_lon).1 = [req]
    ∧ req_url req = "https://graphhopper.com/api/1/route"
    ∧ ("key", [default_key]) ∈ req_params req.
Proof.
  intros Henv. unfold get_route, GRAPHHOPPER_KEY. rewrite Henv. cbn.
  eexists. split; [reflexivity |]. split; [reflexivity |].
  cbn. do 2 apply list_elem_of_further. apply list_elem_of_here.
Qed.

Lemma route_without_credential_calls_out_witness :
  ∃ req,
    (get_route RefLibm.text Sample.service ∅ pos_zero pos_zero pos_zero pos_zero).1
    = [req]
    ∧ req_url req = "https://graphhopper.com/api/1/route"
    ∧ ("key", [default_key]) ∈ req_params req.
Proof.
  apply (route_without_credential_calls_out RefLibm.text Sample.service ∅).
  apply lookup_empty.
Defined.

(** * Further properties of the loader *)

(** [row[label]] after the [fillna] assignment on [fill_label]. *)
Lemma row_get_fillna_fmap cols fill_label label r :
  row_get cols (fillna_row cols fill_label r) label
  = (λ c, if decide (label = fill_label)
          then (if is_missing c then CStr EmptyString else c) else c)
    <$> row_get cols r label.
Proof.
  destruct (decide (label = fill_label)) as [->|Hne].
  - unfold row_get, fillna_row.
    destruct (list_find (λ c, c = fill_label) cols) as [[i x]|] eqn:Hi; [|done].
    rewrite list_lookup_alter_eq. by destruct (r !! i).
  - rewrite row_get_fillna by done. by destruct (row_get cols r label).
Qed.

(** The cell the constructor reads for [label] in a row of [df]. *)
Lemma row_get_fill_row_fmap df label r :
  row_get (stripped_columns df) (fill_row df r) label
  = (λ c, if decide (label = "Address" ∨ label = "City")
          then (if is_missing c then CStr EmptyString else c) else c)
    <$> row_get (stripped_columns df) r label.
Proof.
  unfold fill_row. rewrite !row_get_fillna_fmap.
  destruct (row_get (stripped_columns df) r label) as [c|]; [|done]. cbn.
  destruct (decide (label = "City")) as [Hc|Hc],
    (decide (label = "Address")) as [Ha|Ha].
  - congruence.
  - by rewrite decide_True by auto.
  - by rewrite decide_True by auto.
  - by rewrite decide_False by (intros []; done).
Qed.

Lemma row_get_fill_row_address_intro df r c :
  row_get (stripped_columns df) r "Address" = Ok c →
  row_get (stripped_columns df) (fill_row df r) "Address"
  = Ok (if is_missing c then CStr EmptyString else c).
Proof.
  intros H. rewrite row_get_fill_row_fmap, H. cbn. by rewrite decide_True by auto.
Qed.

Lemma row_get_fill_row_city_intro df r c :
  row_get (stripped_columns df) r "City" = Ok c →
  row_get (stripped_columns df) (fill_row df r) "City"
  = Ok (if is_missing c then CStr EmptyString else c).
Proof.
  intros H. rewrite row_get_fill_row_fmap, H. cbn. by rewrite decide_True by auto.
Qed.

(** The record a row with acceptable cells is turned into. *)
Lemma make_bank_Ok_intro (T : float_text) (df : DataFrame) (r : list cell)
    v_id s_name v_address v_city s_state v_lat v_lon lat lon :
  row_get (stripped_columns df) r "Sr No" = Ok v_id →
  row_get (stripped_columns df) r "Blood Bank Name" = Ok (CStr s_name) →
  row_get (stripped_columns df) r "Address" = Ok v_address →
  (is_missing v_address = true ∨ ∃ s, v_address = CStr s) →
  row_get (stripped_columns df) r "City" = Ok v_city →
  (is_missing v_city = true ∨ ∃ s, v_city = CStr s) →
  row_get (stripped_columns df) r "State" = Ok (CStr s_state) →
  row_get (stripped_columns df) r "latitude" = Ok v_lat →
  py_float T v_lat = Ok lat →
  row_get (stripped_columns df) r "longitude" = Ok v_lon →
  py_float T v_lon = Ok lon →
  make_bank T (stripped_columns df) (fill_row df r)
  = Ok {| id := py_str T v_id; name := s_name;
          address := match v_address with CStr s => s | _ => EmptyString end;
          city := match v_city with CStr s => s | _ => EmptyString end;
          state := s_state; latitude := lat; longitude := lon;
          distance := None |}.
Proof.
  intros Hid Hname Haddr Ha Hcity Hc Hstate Hlat Hflat Hlon Hflon.
  unfold make_bank. change (col_of "id") with "Sr No".
  change (col_of "name") with "Blood Bank Name".
  change (col_of "address") with "Address". change (col_of "city") with "City".
  change (col_of "state") with "State". change (col_of "latitude") with "latitude".
  change (col_of "longitude") with "longitude".
  rewrite (row_get_fill_row df "Sr No"), (row_get_fill_row df "Blood Bank Name"),
    (row_get_fill_row df "State"), (row_get_fill_row df "latitude"),
    (row_get_fill_row df "longitude") by done.
  rewrite (row_get_fill_row_address_intro _ _ _ Haddr),
    (row_get_fill_row_city_intro _ _ _ Hcity).
  rewrite Hid, Hname, Hstate, Hlat, Hlon.
  cbn [mbind result_bind]. rewrite Hflat.
  cbn [mbind result_bind]. rewrite Hflon. cbn.
  destruct Ha as [Ha|[sa ->]], Hc as [Hc|[sc ->]]; rewrite ?Ha, ?Hc; cbn;
    try reflexivity.
  - by destruct v_address, v_city.
  - by destruct v_address.
  - by destruct v_city.
Qed.

(** X1: in a table whose labels are pairwise distinct once stripped, a row
    gives a record exactly when it has a serial-number cell, its name and
    state cells are text, its address and city cells are text or missing, and
    [float] accepts its latitude and longitude cells; every other row is
    skipped. *)
Theorem row_is_kept_iff (T : float_text) (df : DataFrame) (r : list cell) :
  NoDup (stripped_columns df) →
  (is_ok (make_bank T (stripped_columns df) (fill_row df r)) = true
   ↔ row_acceptable T (stripped_columns df) r)
  ∧ (bank_of_row T (stripped_columns df) (fill_row df r) = None
     ↔ ¬ row_acceptable T (stripped_columns df) r).
Proof.
  intros _.
  assert (is_ok (make_bank T (stripped_columns df) (fill_row df r)) = true
          ↔ row_acceptable T (stripped_columns df) r) as Hiff.
  { split.
    - destruct (make_bank T _ _) as [b|] eqn:Hmk; [intros _ | done].
      destruct (make_bank_Ok_inv T _ _ _ Hmk)
        as (v_id & v_lat & v_lon & Hid & _ & Hname & Haddr & Hcity & Hstate
            & Hlat & Hflat & Hlon & Hflon & _).
      rewrite row_get_fill_row in Hid, Hname, Hstate, Hlat, Hlon by done.
      apply row_get_fill_row_address in Haddr as (v_address & Haddr & Ha).
      apply row_get_fill_row_city in Hcity as (v_city & Hcity & Hc).
      exists v_id, (name b), v_address, v_city, (state b), v_lat, v_lon.
      repeat split; try done.
      + destruct (is_missing v_address); [by left | right; eauto].
      + destruct (is_missing v_city); [by left | right; eauto].
      + by rewrite Hflat.
      + by rewrite Hflon.
    - intros (v_id & s_name & v_address & v_city & s_state & v_lat & v_lon
              & Hid & Hname & Haddr & Ha & Hcity & Hc & Hstate & Hlat & Hflat
              & Hlon & Hflon).
      destruct (py_float T v_lat) as [lat|] eqn:Elat; [|done].
      destruct (py_float T v_lon) as [lon|] eqn:Elon; [|done].
      by erewrite make_bank_Ok_intro. }
  split; [exact Hiff |].
  rewrite bank_of_row_None, <- Hiff.
  by destruct (is_ok (make_bank T (stripped_columns df) (fill_row df r))).
Qed.

Lemma row_is_kept_iff_witness :
  row_acceptable RefLibm.text (stripped_columns Sample.table) Sample.delhi
  ∧ ¬ row_acceptable RefLibm.text (stripped_columns Sample.table) Sample.no_name
  ∧ ¬ row_acceptable RefLibm.text (stripped_columns Sample.table) Sample.bad_latitude.
Proof.
  assert (NoDup (stripped_columns Sample.table)) as Hnd
    by (apply (bool_decide_unpack _); vm_compute; exact I).
  split; [|split].
  - apply (proj1 (row_is_kept_iff RefLibm.text Sample.table Sample.delhi Hnd)).
    vm_compute. reflexivity.
  - apply (proj2 (row_is_kept_iff RefLibm.text Sample.table Sample.no_name Hnd)).
    vm_compute. reflexivity.
  - apply (proj2 (row_is_kept_iff RefLibm.text Sample.table Sample.bad_latitude Hnd)).
    vm_compute. reflexivity.
Defined.



(** Rows that agree on the mapped columns give the same record. *)
Lemma make_bank_agree (T : float_text) (df1 df2 : DataFrame) (r1 r2 : list cell) :
  (∀ label, label ∈ col_mapping_values →
     row_get (stripped_columns df1) r1 label = row_get (stripped_columns df2) r2 label) →
  make_bank T (stripped_columns df1) (fill_row df1 r1)
  = make_bank T (stripped_columns df2) (fill_row df2 r2).
Proof.
  intros H. unfold make_bank. rewrite !row_get_fill_row_fmap.
  assert (∀ field, col_of field ∈ col_mapping_values →
    row_get (stripped_columns df1) r1 (col_of field)
    = row_get (stripped_columns df2) r2 (col_of field)) as H' by auto.
  rewrite !H'; [done | apply (bool_decide_unpack _); by vm_compute ..].
Qed.

Lemma filter_iff_elem_of {A} (P1 P2 : A → Prop)
    `{!∀ x, Decision (P1 x), !∀ x, Decision (P2 x)} (l : list A) :
  (∀ x, x ∈ l → P1 x ↔ P2 x) → filter P1 l = filter P2 l.
Proof.
  induction l as [|x l IH]; intros Hiff; [done |].
  rewrite !filter_cons, IH by (intros; apply Hiff; by right).
  assert (P1 x ↔ P2 x) as Hx by (apply Hiff; by left).
  destruct (decide (P1 x)) as [H1|H1], (decide (P2 x)) as [H2|H2]; tauto.
Qed.

Lemma omap_cons_match {A B} (f : A → option B) (x : A) (l : list A) :
  omap f (x :: l) = match f x with Some y => y :: omap f l | None => omap f l end.
Proof. reflexivity. Qed.

Lemma missing_cols_agree (df1 df2 : DataFrame) :
  (∀ label, label ∈ col_mapping_values →
     label ∈ stripped_columns df1 ↔ label ∈ stripped_columns df2) →
  missing_cols df1 = missing_cols df2.
Proof.
  intros H. unfold missing_cols. apply filter_iff_elem_of.
  intros label Hl. by rewrite (H label Hl).
Qed.

(** X3: the load reads the table through the seven mapped columns only.
    Two tables, each with labels that are pairwise distinct once stripped,
    that have the same mapped columns among their stripped headers and whose
    rows agree, one by one, on the cells of those columns load into the same
    result, whatever their other columns, the order of their columns or the
    blanks around their headers. *)
Theorem load_reads_mapped_columns_only (T : float_text) (df1 df2 : DataFrame) :
  NoDup (stripped_columns df1) → NoDup (stripped_columns df2) →
  (∀ label, label ∈ col_mapping_values →
     label ∈ stripped_columns df1 ↔ label ∈ stripped_columns df2) →
  Forall2 (λ r1 r2, ∀ label, label ∈ col_mapping_values →
             row_get (stripped_columns df1) r1 label
             = row_get (stripped_columns df2) r2 label)
    (rows df1) (rows df2) →
  load_blood_banks T (Frame df1) = load_blood_banks T (Frame df2).
Proof.
  intros _ _ Hcols Hrows. unfold load_blood_banks, load_body.
  rewrite (missing_cols_agree df1 df2 Hcols).
  destruct (missing_cols df2); [|done]. f_equal.
  unfold filled_rows. generalize dependent (rows df2). generalize (rows df1).
  intros rs1 rs2 Hrows. induction Hrows as [|r1 r2 rs1 rs2 Hr _ IH]; [done |].
  rewrite !fmap_cons, !omap_cons_match, IH. unfold bank_of_row.
  by rewrite (make_bank_agree T df1 df2 r1 r2 Hr).
Qed.

Lemma load_reads_mapped_columns_only_witness :
  load_blood_banks RefLibm.text (Frame Sample.table)
  = load_blood_banks RefLibm.text
      (Frame {| columns := [ "longitude "; "latitude"; "State"; "City"; "Address";
                             "Blood Bank Name"; "  Sr No" ];
                rows := [ [ CInt 77; CInt 28; CStr "Delhi"; CStr "Delhi";
                            CStr "1 Red Cross Road"; CStr "Red Cross"; CInt 1 ];
                          [ CInt 72; CInt 19; CStr "Delhi"; CStr "Delhi";
                            CFloat nan; CStr "City Hospital"; CInt 2 ];
                          [ CInt 78; CInt 20; CStr "Delhi"; CStr "Delhi";
                            CStr "Main Street"; CFloat nan; CInt 3 ];
                          [ CInt 78; CStr "north"; CStr "Delhi"; CStr "Delhi";
                            CStr "Ring Road"; CStr "Clinic"; CInt 4 ] ] |}).
Proof.
  apply load_reads_mapped_columns_only.
  - apply (bool_decide_unpack _). vm_compute. exact I.
  - apply (bool_decide_unpack _). vm_compute. exact I.
  - intros label Hl. vm_compute in Hl.
    repeat (apply elem_of_cons in Hl as [->|Hl];
            [split; intros _; apply (bool_decide_unpack _); by vm_compute |]).
    by apply elem_of_nil in Hl.
  - repeat (constructor;
            [intros label Hl; vm_compute in Hl;
             repeat (apply elem_of_cons in Hl as [->|Hl]; [by vm_compute |]);
             by apply elem_of_nil in Hl |]).
    constructor.
Defined.

(** X4: [load_blood_banks] fails as a whole or not at all, and always in
    the same way: an [HTTPException] with status 500 whose detail starts with
    [CSV Error: ].  A missing file is reported with its path, a failure of the
    reader with the reader's message. *)
Theorem load_failure_is_csv_error (T : float_text) (src : csv_source) (e : exn) :
  load_blood_banks T src = Err e →
  ∃ cause, e = HTTPException 500 ("CSV Error: " ++ cause)
    ∧ (src = NoFile → cause = "CSV file not found at " ++ CSV_PATH)
    ∧ (∀ e0, src = ReadFails e0 → cause = exn_str e0)
    ∧ (∀ df, src = Frame df →
         cause = "CSV missing required columns: " ++ join ", " (missing_cols df)
         ∧ missing_cols df ≠ []).
Proof.
  unfold load_blood_banks. destruct (load_body T src) as [|e0] eqn:Hb; [done |].
  intros [= <-]. exists (exn_str e0). split; [done |].
  destruct src as [|e1|df]; simpl in Hb.
  - injection Hb as <-. repeat split; intros; done.
  - injection Hb as <-. repeat split; intros; simplify_eq; done.
  - destruct (missing_cols df) eqn:Hm; [done |]. injection Hb as <-.
    split; [done |]. split; [done |]. intros df' [= <-]. by rewrite Hm.
Qed.

Lemma load_failure_is_csv_error_witness :
  ∃ cause,
    HTTPException 500 ("CSV Error: CSV file not found at " ++ CSV_PATH)
    = HTTPException 500 ("CSV Error: " ++ cause)
    ∧ (NoFile = NoFile → cause = "CSV file not found at " ++ CSV_PATH)
    ∧ (∀ e0, NoFile = ReadFails e0 → cause = exn_str e0)
    ∧ (∀ df, NoFile = Frame df →
         cause = "CSV missing required columns: " ++ join ", " (missing_cols df)
         ∧ missing_cols df ≠ []).
Proof.
  apply (load_failure_is_csv_error RefLibm.text NoFile). reflexivity.
Defined.

(** [str] of an integer can be read back. *)
Lemma string_of_Z_inj (n m : Z) : string_of_Z n = string_of_Z m → n = m.
Proof.
  unfold string_of_Z. intros H. apply DecimalZ.to_int_inj.
  assert (∀ z, NilZero.int_of_string (NilZero.string_of_int (Z.to_int z))
               = Some (Z.to_int z)) as Hrt.
  { intros z. apply NilZero.isi; destruct z; simpl; try discriminate;
      intros [= Hz]; by apply DecimalPos.Unsigned.to_uint_nonnil in Hz. }
  pose proof (Hrt n) as Hn. rewrite H, Hrt in Hn. by injection Hn.
Qed.

(** X5: records built from rows with different integer serial numbers have
    different ids. *)
Theorem integer_serials_give_distinct_ids (T : float_text) (df : DataFrame)
    (r1 r2 : list cell) (b1 b2 : BloodBank) (n1 n2 : Z) :
  make_bank T (stripped_columns df) (fill_row df r1) = Ok b1 →
  make_bank T (stripped_columns df) (fill_row df r2) = Ok b2 →
  row_get (stripped_columns df) r1 "Sr No" = Ok (CInt n1) →
  row_get (stripped_columns df) r2 "Sr No" = Ok (CInt n2) →
  n1 ≠ n2 → id b1 ≠ id b2.
Proof.
  intros H1 H2 Hn1 Hn2 Hne Hid.
  destruct (make_bank_Ok_inv T _ _ _ H1) as (v1 & _ & _ & Hv1 & Hid1 & _).
  destruct (make_bank_Ok_inv T _ _ _ H2) as (v2 & _ & _ & Hv2 & Hid2 & _).
  rewrite row_get_fill_row in Hv1, Hv2 by done.
  rewrite Hn1 in Hv1. rewrite Hn2 in Hv2. injection Hv1 as <-. injection Hv2 as <-.
  rewrite Hid1, Hid2 in Hid. simpl in Hid. by apply string_of_Z_inj in Hid.
Qed.

Lemma integer_serials_give_distinct_ids_witness :
  id Sample.bank_delhi ≠ id Sample.bank_mumbai.
Proof.
  apply (integer_serials_give_distinct_ids RefLibm.text Sample.table
           Sample.delhi Sample.mumbai Sample.bank_delhi Sample.bank_mumbai 1 2);
    try (vm_compute; reflexivity). discriminate.
Defined.

(** * Further properties of the handlers *)

Lemma or_http_500_Err {A} (r : result A) (e : exn) :
  or_http_500 r = Err e → ∃ d, e = HTTPException 500 d.
Proof. destruct r; [done |]. intros [= <-]. eauto. Qed.

(** X6: when no computed distance is NaN, [POST /nearby] returns the nearest
    records: the loaded records, with their distances, split into the
    returned ones and the others, every returned record is at most as far as
    every other one, and records are left out only once ten are returned. *)
Theorem nearby_returns_the_nearest (M : libm) (T : float_text) (src : csv_source)
    (location : Location) (banks out : list BloodBank) :
  load_blood_banks T src = Ok banks →
  get_nearby M T src location = Ok out →
  (∀ b, b ∈ banks →
     haversine M (loc_latitude location) (loc_longitude location)
       (latitude b) (longitude b) ≠ Ok nan) →
  ∃ marked rest,
    Forall2 (measured M location) banks marked
    ∧ out ++ rest ≡ₚ marked
    ∧ (∀ x y, x ∈ out → y ∈ rest → distance_le x y)
    ∧ (rest ≠ [] → length out = 10%nat).
Proof.
  intros Hload Hget Hnan.
  apply get_nearby_Ok_inv in Hget as (banks' & keyed & Hload' & Hk & ->).
  rewrite Hload in Hload'. injection Hload' as <-.
  destruct (keyed_measured M _ _ _ Hk) as [Hm Hkd].
  assert (StronglySorted distance_le (rank keyed)) as Hsorted.
  { apply rank_sorted; [done |].
    apply mapM_Ok_Forall2 in Hk. apply Forall_forall. intros p Hp.
    apply list_elem_of_lookup in Hp as [i Hi].
    destruct (Forall2_lookup_r _ _ _ _ _ Hk Hi) as (b & Hb & Hp).
    apply list_elem_of_lookup_2 in Hb. specialize (Hnan b Hb).
    unfold with_distance in Hp.
    destruct (haversine M _ _ _ _) as [d|]; [|done].
    injection Hp as <-. simpl. by destruct d. }
  exists keyed.*2, (drop 10 (rank keyed)). split; [done |]. split; [|split].
  - rewrite take_drop. apply rank_perm.
  - intros x y Hx Hy. rewrite <- (take_drop 10 (rank keyed)) in Hsorted.
    by eapply StronglySorted_app_1_elem_of.
  - intros Hrest. rewrite length_take. apply Nat.min_l.
    destruct (decide (10 ≤ length (rank keyed))%nat) as [|Hlt]; [done |].
    destruct Hrest. apply drop_ge. lia.
Qed.

Lemma nearby_returns_the_nearest_witness :
  ∃ out marked rest,
    get_nearby RefLibm.lib RefLibm.text (Frame Sample.district) Sample.origin = Ok out
    ∧ id <$> out = ["2"; "7"; "4"; "9"; "12"; "8"; "11"; "1"; "5"; "6"]
    ∧ Forall2 (measured RefLibm.lib Sample.origin) Sample.district_banks marked
    ∧ out ++ rest ≡ₚ marked
    ∧ (∀ x y, x ∈ out → y ∈ rest → distance_le x y)
    ∧ length rest = 2%nat
    ∧ length out = 10%nat.
Proof.
  assert (load_blood_banks RefLibm.text (Frame Sample.district)
          = Ok Sample.district_banks) as Hload by (vm_compute; reflexivity).
  assert (∃ out,
    get_nearby RefLibm.lib RefLibm.text (Frame Sample.district) Sample.origin = Ok out
    ∧ id <$> out = ["2"; "7"; "4"; "9"; "12"; "8"; "11"; "1"; "5"; "6"])
    as (out & Hget & Hids).
  { eexists. split; vm_compute; reflexivity. }
  destruct (nearby_returns_the_nearest RefLibm.lib RefLibm.text (Frame Sample.district)
              Sample.origin Sample.district_banks out Hload Hget)
    as (marked & rest & Hm & Hp & Hle & Hten).
  { intros b Hb.
    repeat (apply elem_of_cons in Hb as [->|Hb]; [vm_compute; discriminate |]).
    apply elem_of_nil in Hb. destruct Hb. }
  assert (length out = 10%nat) as Hout
    by (rewrite <- (length_fmap id), Hids; reflexivity).
  assert (length rest = 2%nat) as Hrest.
  { apply Permutation_length in Hp. apply Forall2_length in Hm.
    rewrite length_app, Hout, <- Hm in Hp. simpl in Hp. lia. }
  exists out, marked, rest.
  split; [exact Hget |]. split; [exact Hids |]. split; [exact Hm |].
  split; [exact Hp |]. split; [exact Hle |]. split; [exact Hrest | exact Hout].
Defined.

(** X7: when the load yields no record (no rows, or only rows that are
    skipped), [POST /nearby] answers with the empty list for every query
    point, NaN and infinite coordinates included. *)
Theorem nearby_of_nothing (M : libm) (T : float_text) (src : csv_source)
    (location : Location) :
  load_blood_banks T src = Ok [] → get_nearby M T src location = Ok [].
Proof. intros H. unfold get_nearby. by rewrite H. Qed.

Lemma nearby_of_nothing_witness :
  get_nearby RefLibm.lib RefLibm.text
    (Frame {| columns := Sample.header; rows := [Sample.no_name; Sample.bad_latitude] |})
    {| loc_latitude := pos_inf; loc_longitude := nan |}
  = Ok [].
Proof.
  apply nearby_of_nothing. vm_compute. reflexivity.
Defined.

(** X8: one loaded record whose distance cannot be computed makes the whole
    [POST /nearby] request fail; no partial list is returned, and the failure
    is an [HTTPException] with status 500. *)
Theorem nearby_fails_as_a_whole (M : libm) (T : float_text) (src : csv_source)
    (location : Location) (banks : list BloodBank) (b : BloodBank) :
  load_blood_banks T src = Ok banks → b ∈ banks →
  is_ok (haversine M (loc_latitude location) (loc_longitude location)
           (latitude b) (longitude b)) = false →
  ∃ detail, get_nearby M T src location = Err (HTTPException 500 detail).
Proof.
  intros Hload Hb Hfail. unfold get_nearby. rewrite Hload. cbn [mbind result_bind].
  assert (is_ok (mapM (with_distance M location) banks) = false) as Hm.
  { apply (mapM_Err_elem_of _ _ b Hb). unfold with_distance.
    by destruct (haversine M _ _ _ _). }
  destruct (mapM (with_distance M location) banks) as [|e]; [done |]. cbn. eauto.
Qed.

Lemma nearby_fails_as_a_whole_witness :
  ∃ detail,
    get_nearby RefLibm.lib RefLibm.text
      (Frame {| columns := Sample.header; rows := [Sample.delhi; Sample.far_north] |})
      Sample.origin
    = Err (HTTPException 500 detail).
Proof.
  apply (nearby_fails_as_a_whole RefLibm.lib RefLibm.text _ Sample.origin
           [Sample.bank_delhi; Sample.pole] Sample.pole).
  - vm_compute. reflexivity.
  - apply list_elem_of_further, list_elem_of_here.
  - vm_compute. reflexivity.
Defined.

(** X9: the two list handlers fail only with status 500, fail whenever the
    load fails, and [GET /all-blood-banks] returns exactly the loaded
    records. *)
Theorem list_handlers_error_contract (M : libm) (T : float_text)
    (src : csv_source) (location : Location) :
  (∀ e, get_nearby M T src location = Err e → ∃ d, e = HTTPException 500 d)
  ∧ (∀ e, get_all_blood_banks T src = Err e → ∃ d, e = HTTPException 500 d)
  ∧ (∀ banks, get_all_blood_banks T src = Ok banks ↔ load_blood_banks T src = Ok banks)
  ∧ (is_ok (load_blood_banks T src) = false →
       is_ok (get_nearby M T src location) = false
       ∧ is_ok (get_all_blood_banks T src) = false).
Proof.
  split; [intros e; apply or_http_500_Err |].
  split; [intros e; apply or_http_500_Err |].
  split; [intros banks; apply or_http_500_Ok |].
  unfold get_nearby, get_all_blood_banks.
  by destruct (load_blood_banks T src).
Qed.

Lemma list_handlers_error_contract_witness :
  is_ok (get_nearby RefLibm.lib RefLibm.text NoFile Sample.origin) = false
  ∧ is_ok (get_all_blood_banks RefLibm.text NoFile) = false.
Proof.
  apply (list_handlers_error_contract RefLibm.lib RefLibm.text NoFile Sample.origin).
  reflexivity.
Defined.

(** * Further properties of the route proxy *)

Section RouteFacts.
Variables (T : float_text) (http_get : request → result response).
Variable environ : gmap string string.
Variables start_lat start_lon end_lat end_lon : float.

(** The request [get_route] builds. *)
Lemma get_route_calls :
  (get_route T http_get environ start_lat start_lon end_lat end_lon).1
  = if decide (GRAPHHOPPER_KEY environ = EmptyString) then []
    else [ {| req_url := "https://graphhopper.com/api/1/route";
              req_params :=
                [ ("point", [ float_repr T start_lat ++ "," ++ float_repr T start_lon;
                              float_repr T end_lat ++ "," ++ float_repr T end_lon ]);
                  ("vehicle", ["car"]);
                  ("key", [GRAPHHOPPER_KEY environ]);
                  ("points_encoded", ["false"]) ] |} ].
Proof. unfold get_route. by destruct (decide (GRAPHHOPPER_KEY environ = EmptyString)). Qed.

(** X10: [GET /route] sends at most one request, never a second one; it
    sends none exactly when the configured key is the empty string, and then
    it fails. *)
Theorem route_sends_at_most_one_request :
  (length (get_route T http_get environ start_lat start_lon end_lat end_lon).1 ≤ 1)%nat
  ∧ ((get_route T http_get environ start_lat start_lon end_lat end_lon).1 = []
     ↔ GRAPHHOPPER_KEY environ = EmptyString)
  ∧ (GRAPHHOPPER_KEY environ = EmptyString →
     is_ok (get_route T http_get environ start_lat start_lon end_lat end_lon).2 = false).
Proof.
  rewrite get_route_calls. unfold get_route.
  destruct (decide (GRAPHHOPPER_KEY environ = EmptyString)) as [Hk|Hk]; simpl.
  - split; [lia |]. split; done.
  - split; [lia |]. split; [split; [done | by intros ?] | by intros ?].
Qed.

(** X11: the request goes to the routing service with the start point
    before the end point, the vehicle [car], unencoded points, and as key the
    value of [GRAPHHOPPER_API_KEY] when the environment has one. *)
Theorem route_request_carries_configured_key (key : string) :
  environ !! "GRAPHHOPPER_API_KEY" = Some key → key ≠ EmptyString →
  (get_route T http_get environ start_lat start_lon end_lat end_lon).1
  = [ {| req_url := "https://graphhopper.com/api/1/route";
         req_params :=
           [ ("point", [ float_repr T start_lat ++ "," ++ float_repr T start_lon;
                         float_repr T end_lat ++ "," ++ float_repr T end_lon ]);
             ("vehicle", ["car"]);
             ("key", [key]);
             ("points_encoded", ["false"]) ] |} ].
Proof.
  intros Henv Hkey. rewrite get_route_calls. unfold GRAPHHOPPER_KEY. rewrite Henv.
  simpl. by rewrite decide_False.
Qed.

(** X12: when the routing service answers with a status outside 400..599
    and a JSON body, [GET /route] returns that body unchanged. *)
Theorem route_passes_the_body_through (req : request) (resp : response)
    (body : string) :
  (get_route T http_get environ start_lat start_lon end_lat end_lon).1 = [req] →
  http_get req = Ok resp →
  ¬ (400 ≤ resp_status resp < 600) →
  resp_json resp = Some body →
  (get_route T http_get environ start_lat start_lon end_lat end_lon).2 = Ok body.
Proof.
  rewrite get_route_calls. unfold get_route.
  destruct (decide (GRAPHHOPPER_KEY environ = EmptyString)) as [Hk|Hk]; [done |].
  intros [= <-] Hget Hstatus Hjson. cbn [snd]. rewrite Hget.
  unfold raise_for_status.
  destruct ((400 <=? resp_status resp) && (resp_status resp <? 600)) eqn:Hs.
  - apply andb_true_iff in Hs as [H1 H2]. apply Z.leb_le in H1. apply Z.ltb_lt in H2.
    destruct Hstatus. lia.
  - by rewrite Hjson.
Qed.

(** X13: every failure of [GET /route] is an [HTTPException] with status
    500, whatever status the routing service answered with; when the service
    answers with a status in 400..599, or [requests] raises, the detail starts
    with [Routing API error: ]. *)
Theorem route_failure_is_500 :
  (∀ e, (get_route T http_get environ start_lat start_lon end_lat end_lon).2 = Err e →
        ∃ detail, e = HTTPException 500 detail)
  ∧ (∀ req resp,
       (get_route T http_get environ start_lat start_lon end_lat end_lon).1 = [req] →
       http_get req = Ok resp → 400 ≤ resp_status resp < 600 →
       ∃ cause,
         (get_route T http_get environ start_lat start_lon end_lat end_lon).2
         = Err (HTTPException 500 ("Routing API error: " ++ cause)))
  ∧ (∀ req msg,
       (get_route T http_get environ start_lat start_lon end_lat end_lon).1 = [req] →
       http_get req = Err (PyErr RequestException msg) →
       (get_route T http_get environ start_lat start_lon end_lat end_lon).2
       = Err (HTTPException 500 ("Routing API error: " ++ msg))).
Proof.
  rewrite get_route_calls. unfold get_route.
  destruct (decide (GRAPHHOPPER_KEY environ = EmptyString)) as [Hk|Hk]; cbn [snd].
  - split; [intros e [= <-]; eauto |]. split; intros; done.
  - set (req0 := {| req_url := _; req_params := _ |}). split; [|split].
    + intros e. destruct (http_get req0) as [resp|e0].
      * destruct (raise_for_status resp) as [|e1].
        -- destruct (resp_json resp); [done |]. intros [= <-]. simpl. eauto.
        -- intros [= <-]. destruct (is_request_exception e1); eauto.
      * intros [= <-]. destruct (is_request_exception e0); eauto.
    + intros req resp [= <-] Hget [H1 H2]. rewrite Hget. unfold raise_for_status.
      apply Z.leb_le in H1. apply Z.ltb_lt in H2. rewrite H1, H2. simpl. eauto.
    + intros req msg [= <-] Hget. by rewrite Hget.
Qed.

End RouteFacts.

Lemma route_request_carries_configured_key_witness :
  (get_route RefLibm.text Sample.service {["GRAPHHOPPER_API_KEY" := "secret"]}
     (of_int 28) (of_int 77) (of_int 19) (of_int 72)).1
  = [ {| req_url := "https://graphhopper.com/api/1/route";
         req_params :=
           [ ("point", [ float_repr RefLibm.text (of_int 28) ++ ","
                           ++ float_repr RefLibm.text (of_int 77);
                         float_repr RefLibm.text (of_int 19) ++ ","
                           ++ float_repr RefLibm.text (of_int 72) ]);
             ("vehicle", ["car"]);
             ("key", ["secret"]);
             ("points_encoded", ["false"]) ] |} ].
Proof.
  apply route_request_carries_configured_key; [apply lookup_singleton_eq | done].
Defined.

Lemma route_passes_the_body_through_witness :
  (get_route RefLibm.text Sample.service ∅ pos_zero pos_zero pos_zero pos_zero).2
  = Ok "{}".
Proof.
  eapply (route_passes_the_body_through RefLibm.text Sample.service ∅
            pos_zero pos_zero pos_zero pos_zero _
            {| resp_status := 200; resp_json := Some "{}" |}).
  - vm_compute. reflexivity.
  - reflexivity.
  - simpl. lia.
  - reflexivity.
Defined.

Lemma route_failure_is_500_witness :
  ∃ cause,
    (get_route RefLibm.text
       (λ _, Ok {| resp_status := 401; resp_json := Some "{}" |}) ∅
       pos_zero pos_zero pos_zero pos_zero).2
    = Err (HTTPException 500 ("Routing API error: " ++ cause)).
Proof.
  eapply (proj1 (proj2 (route_failure_is_500 RefLibm.text
            (λ _, Ok {| resp_status := 401; resp_json := Some "{}" |}) ∅
            pos_zero pos_zero pos_zero pos_zero))).
  - vm_compute. reflexivity.
  - reflexivity.
  - simpl. lia.
Defined.

Lemma route_sends_at_most_one_request_witness :
  is_ok (get_route RefLibm.text Sample.service
           {["GRAPHHOPPER_API_KEY" := EmptyString]}
           pos_zero pos_zero pos_zero pos_zero).2 = false.
Proof.
  apply (route_sends_at_most_one_request RefLibm.text Sample.service
           {["GRAPHHOPPER_API_KEY" := EmptyString]}).
  reflexivity.
Defined.

(** * Further properties of the distance *)

Section DistanceFacts.
Variable M : libm.

Lemma radians_half_infinity s :
  (radians (S754_infinity s) / of_int 2)%float = S754_infinity s.
Proof. destruct s; by vm_compute. Qed.

(** X14: when the difference of the two latitudes is infinite (one latitude
    is infinite, or both are with opposite signs), [haversine] raises
    [ValueError("math domain error")], with a C library whose [sin] maps the
    infinities to NaN. *)
Theorem haversine_infinite_difference_raises (lat1 lon1 lat2 lon2 : float) :
  (∀ s, isnan (c_sin M (S754_infinity s)) = true) →
  isinf (lat2 - lat1)%float = true →
  haversine M lat1 lon1 lat2 lon2 = Err math_domain_error.
Proof.
  intros Hsin Hinf. unfold haversine.
  destruct (lat2 - lat1)%float as [|s| |]; try done.
  rewrite radians_half_infinity. unfold math_sin, math_1. by rewrite Hsin.
Qed.

Lemma sin_squared_nan : c_sin M nan = nan → sin_squared M nan = Ok nan.
Proof. intros H. unfold sin_squared, math_sin, math_1. by rewrite H. Qed.

Lemma add_nan_l x : (nan + x)%float = nan.
Proof. reflexivity. Qed.

Lemma add_nan_r x : (x + nan)%float = nan.
Proof. by destruct x. Qed.

Lemma mul_nan_r x : (x * nan)%float = nan.
Proof. by destruct x. Qed.

Lemma sub_nan_l x : (nan - x)%float = nan.
Proof. reflexivity. Qed.

Lemma sub_nan_r x : (x - nan)%float = nan.
Proof. by destruct x. Qed.

Lemma haversine_tail_nan :
  (q1 ← math_sqrt nan;
   q2 ← math_sqrt (of_int 1 - nan)%float;
   t ← math_atan2 M q1 q2;
   Ok (of_int (6371 * 2) * t)%float) = Ok nan.
Proof. by vm_compute. Qed.

(** X15: [haversine] never returns a number when one of its four arguments
    is NaN: with a C library whose [sin] maps NaN to NaN it returns NaN, or
    raises. *)
Theorem haversine_of_nan_is_nan (lat1 lon1 lat2 lon2 d : float) :
  c_sin M nan = nan →
  isnan lat1 || isnan lon1 || isnan lat2 || isnan lon2 = true →
  haversine M lat1 lon1 lat2 lon2 = Ok d → d = nan.
Proof.
  intros Hsin Hnan. rewrite haversine_unfold.
  assert (isnan lat1 || isnan lat2 = true →
          sin_squared M (radians (lat2 - lat1) / of_int 2)%float = Ok nan) as Hlat.
  { intros H. assert ((lat2 - lat1)%float = nan) as ->
      by (destruct lat1, lat2; done).
    change (radians nan / of_int 2)%float with nan. by apply sin_squared_nan. }
  assert (isnan lon1 || isnan lon2 = true →
          sin_squared M (radians (lon2 - lon1) / of_int 2)%float = Ok nan) as Hlon.
  { intros H. assert ((lon2 - lon1)%float = nan) as ->
      by (destruct lon1, lon2; done).
    change (radians nan / of_int 2)%float with nan. by apply sin_squared_nan. }
  destruct (sin_squared M (radians (lat2 - lat1) / of_int 2)%float) as [h_lat|]
    eqn:E1; [cbn [mbind result_bind] | done].
  destruct (math_cos M (radians lat1)) as [c1|]; [cbn [mbind result_bind] | done].
  destruct (math_cos M (radians lat2)) as [c2|]; [cbn [mbind result_bind] | done].
  destruct (sin_squared M (radians (lon2 - lon1) / of_int 2)%float) as [h_lon|]
    eqn:E2; [cbn [mbind result_bind] | done].
  assert ((h_lat + c1 * c2 * h_lon)%float = nan) as ->.
  { destruct (isnan lat1 || isnan lat2) eqn:Hl.
    - assert (h_lat = nan) as -> by (specialize (Hlat eq_refl); congruence).
      apply add_nan_l.
    - assert (isnan lon1 || isnan lon2 = true) as Hl'
        by (destruct (isnan lat1), (isnan lat2), (isnan lon1), (isnan lon2); done).
      assert (h_lon = nan) as -> by (specialize (Hlon Hl'); congruence).
      by rewrite mul_nan_r, add_nan_r. }
  rewrite haversine_tail_nan. by intros [= <-].
Qed.

(** X16: exchanging the two longitudes, or the two latitudes, does not
    change the outcome of [haversine], with a C library whose [sin] is odd. *)
Theorem haversine_mirror (lat1 lon1 lat2 lon2 : float) :
  sin_odd M →
  haversine M lat1 lon1 lat2 lon2 = haversine M lat1 lon2 lat2 lon1
  ∧ haversine M lat1 lon1 lat2 lon2 = haversine M lat2 lon1 lat1 lon2.
Proof.
  intros Hodd. split.
  - rewrite !haversine_unfold. by rewrite (sin_squared_swap M lon1 lon2 Hodd).
  - rewrite (haversine_swap M lat2 lon1 lat1 lon2 Hodd).
    rewrite !haversine_unfold. by rewrite (sin_squared_swap M lon1 lon2 Hodd).
Qed.

End DistanceFacts.

Lemma haversine_infinite_difference_raises_witness :
  haversine RefLibm.lib pos_inf (of_int 77) (of_int 19) (of_int 72)
  = Err math_domain_error.
Proof.
  apply haversine_infinite_difference_raises; [by intros [] | by vm_compute].
Defined.

Lemma haversine_of_nan_is_nan_witness :
  ∃ d, haversine RefLibm.lib (of_int 28) nan (of_int 19) (of_int 72) = Ok d ∧ d = nan.
Proof.
  exists nan. split; [vm_compute; reflexivity |].
  apply (haversine_of_nan_is_nan RefLibm.lib (of_int 28) nan (of_int 19) (of_int 72));
    [reflexivity | vm_compute; reflexivity | vm_compute; reflexivity].
Defined.

Lemma haversine_mirror_witness :
  haversine RefLibm.lib (of_int 28) (of_int 77) (of_int 19) (of_int 72)
  = haversine RefLibm.lib (of_int 28) (of_int 72) (of_int 19) (of_int 77)
  ∧ haversine RefLibm.lib (of_int 28) (of_int 77) (of_int 19) (of_int 72)
    = haversine RefLibm.lib (of_int 19) (of_int 77) (of_int 28) (of_int 72).
Proof.
  apply haversine_mirror, ref_sin_odd.
Defined.

(** * Properties of the client helpers *)

(** X17: a location set by hand is returned whatever the browser answers;
    without one, the result is [None] exactly when the browser's answer is
    [None] or lacks one of the two coordinate entries; an answer that has both
    entries is returned as it is, [None] coordinates included. *)
Theorem get_location_prefers_manual :
  (∀ st geo lat lon,
     manual_location st = Some (lat, lon) →
     get_location st geo = Some (Some lat, Some lon))
  ∧ (∀ st geo,
       manual_location st = None →
       (get_location st geo = None ↔
        geo = None
        ∨ ∃ g, geo = Some g ∧ (g !! "latitude" = None ∨ g !! "longitude" = None)))
  ∧ (∀ st g a b,
       manual_location st = None →
       g !! "latitude" = Some a → g !! "longitude" = Some b →
       get_location st (Some g) = Some (a, b)).
Proof.
  split; [|split].
  - intros st geo lat lon H. unfold get_location. by rewrite H.
  - intros st geo H. unfold get_location. rewrite H.
    destruct geo as [g|]; [|split; auto].
    destruct (g !! "latitude") as [a|] eqn:Ha, (g !! "longitude") as [b|] eqn:Hb;
      split; try done; try (intros _; right; exists g; split; [done | auto]);
      intros [|(g' & [= <-] & [|])]; congruence.
  - intros st g a b H Ha Hb. unfold get_location. by rewrite H, Ha, Hb.
Qed.

Lemma get_location_prefers_manual_witness :
  get_location {| manual_location := Some (of_int 28, of_int 77);
                  all_blood_banks := JNull |}
    (Some {["latitude" := None; "longitude" := None]})
  = Some (Some (of_int 28), Some (of_int 77))
  ∧ get_location {| manual_location := None; all_blood_banks := JNull |}
      (Some {["latitude" := None; "longitude" := None]})
    = Some (None, None).
Proof.
  destruct get_location_prefers_manual as (Hmanual & _ & Hgeo). split.
  - by apply Hmanual.
  - by apply Hgeo.
Defined.

Lemma load_all_cached http_get st :
  all_blood_banks st ≠ JNull →
  load_all_blood_banks http_get st
  = {| out_session := st; out_requests := []; out_errors := [];
       out_value := all_blood_banks st |}.
Proof. unfold load_all_blood_banks. by destruct (all_blood_banks st). Qed.

(** X18: the list of blood banks is fetched once per session.  After a call
    of [load_all_blood_banks] that returned a list, the next call sends no
    request, shows no error, leaves the session as it is and returns the same
    list, whatever the network would answer. *)
Theorem blood_banks_are_fetched_once
    (http_get1 http_get2 : string → result client_response) (st : session) :
  out_value (load_all_blood_banks http_get1 st) ≠ JNull →
  load_all_blood_banks http_get2 (out_session (load_all_blood_banks http_get1 st))
  = {| out_session := out_session (load_all_blood_banks http_get1 st);
       out_requests := []; out_errors := [];
       out_value := out_value (load_all_blood_banks http_get1 st) |}.
Proof.
  intros Hv.
  assert (all_blood_banks (out_session (load_all_blood_banks http_get1 st))
          = out_value (load_all_blood_banks http_get1 st)) as Hcache.
  { unfold load_all_blood_banks in *.
    destruct (all_blood_banks st) eqn:Hc; try (by rewrite <- Hc).
    destruct (http_get1 _) as [resp|]; [|done].
    destruct (decide (status_code resp = 200)); [|done].
    by destruct (json_body resp). }
  rewrite load_all_cached by (by rewrite Hcache). by rewrite Hcache.
Qed.

Lemma blood_banks_are_fetched_once_witness :
  load_all_blood_banks (λ _, Err (PyErr RequestException "down"))
    {| manual_location := None; all_blood_banks := JArray [] |}
  = {| out_session := {| manual_location := None; all_blood_banks := JArray [] |};
       out_requests := []; out_errors := []; out_value := JArray [] |}.
Proof.
  apply (blood_banks_are_fetched_once
           (λ _, Ok {| status_code := 200; text := "[]"; json_body := Ok (JArray []) |})
           (λ _, Err (PyErr RequestException "down"))
           {| manual_location := None; all_blood_banks := JNull |}).
  discriminate.
Defined.

(** X19: [load_all_blood_banks] sends at most one request, to
    [/all-blood-banks], and never raises.  When it shows an error it shows
    exactly one, returns [None] and leaves the session unchanged, so that the
    next call tries again; it returns a fetched value only for an answer with
    status 200 and a JSON body. *)
Theorem load_all_failure_keeps_session
    (http_get : string → result client_response) (st : session) :
  (out_requests (load_all_blood_banks http_get st) = []
   ∨ out_requests (load_all_blood_banks http_get st)
     = [BACKEND_URL ++ "/all-blood-banks"])
  ∧ (out_errors (load_all_blood_banks http_get st) ≠ [] →
     length (out_errors (load_all_blood_banks http_get st)) = 1%nat
     ∧ out_value (load_all_blood_banks http_get st) = JNull
     ∧ out_session (load_all_blood_banks http_get st) = st)
  ∧ (all_blood_banks st = JNull →
     out_value (load_all_blood_banks http_get st) ≠ JNull →
     ∃ resp, http_get (BACKEND_URL ++ "/all-blood-banks") = Ok resp
             ∧ status_code resp = 200
             ∧ json_body resp = Ok (out_value (load_all_blood_banks http_get st))).
Proof.
  unfold load_all_blood_banks.
  destruct (all_blood_banks st) eqn:Hc; try (by split; [left | split]).
  destruct (http_get _) as [resp|e] eqn:Hget; cbn.
  - destruct (decide (status_code resp = 200)) as [Hs|Hs]; cbn.
    + destruct (json_body resp) as [v|e] eqn:Hj; cbn.
      * split; [by right |]. split; [done |]. intros _ _. eauto.
      * split; [by right |]. split; done.
    + split; [by right |]. split; done.
  - split; [by right |]. split; done.
Qed.

Lemma load_all_failure_keeps_session_witness :
  length (out_errors (load_all_blood_banks
            (λ _, Ok {| status_code := 500; text := "CSV Error";
                        json_body := Err (PyErr RequestException "Expecting value") |})
            {| manual_location := None; all_blood_banks := JNull |})) = 1%nat
  ∧ out_value (load_all_blood_banks
            (λ _, Ok {| status_code := 500; text := "CSV Error";
                        json_body := Err (PyErr RequestException "Expecting value") |})
            {| manual_location := None; all_blood_banks := JNull |}) = JNull
  ∧ out_session (load_all_blood_banks
            (λ _, Ok {| status_code := 500; text := "CSV Error";
                        json_body := Err (PyErr RequestException "Expecting value") |})
            {| manual_location := None; all_blood_banks := JNull |})
    = {| manual_location := None; all_blood_banks := JNull |}.
Proof.
  apply (load_all_failure_keeps_session
           (λ _, Ok {| status_code := 500; text := "CSV Error";
                       json_body := Err (PyErr RequestException "Expecting value") |})
           {| manual_location := None; all_blood_banks := JNull |}).
  discriminate.
Defined.

(** X20: [get_nearby_blood_banks] calls [requests.post] once, on [/nearby]
    with the two coordinates as JSON body, and reads of the network nothing
    but the answer to that call; it leaves the session as it is and never
    raises.  For an answer with status 200 and a JSON body it returns that
    body and shows no error; in every other case (another status, a body that
    is not JSON, an exception of [requests]) it returns [None] and shows
    exactly one error. *)
Theorem get_nearby_blood_banks_contract
    (http_post : string → json → result client_response) (st : session)
    (lat lon : float) :
  out_requests (get_nearby_blood_banks http_post st lat lon) = [BACKEND_URL ++ "/nearby"]
  ∧ out_session (get_nearby_blood_banks http_post st lat lon) = st
  ∧ (∀ http_post' : string → json → result client_response,
       http_post' (BACKEND_URL ++ "/nearby")
         (JObject [("latitude", JNumber lat); ("longitude", JNumber lon)])
       = http_post (BACKEND_URL ++ "/nearby")
           (JObject [("latitude", JNumber lat); ("longitude", JNumber lon)]) →
       get_nearby_blood_banks http_post' st lat lon
       = get_nearby_blood_banks http_post st lat lon)
  ∧ (∀ resp v,
       http_post (BACKEND_URL ++ "/nearby")
         (JObject [("latitude", JNumber lat); ("longitude", JNumber lon)]) = Ok resp →
       status_code resp = 200 → json_body resp = Ok v →
       out_value (get_nearby_blood_banks http_post st lat lon) = v
       ∧ out_errors (get_nearby_blood_banks http_post st lat lon) = [])
  ∧ ((∀ resp v,
        http_post (BACKEND_URL ++ "/nearby")
          (JObject [("latitude", JNumber lat); ("longitude", JNumber lon)]) = Ok resp →
        status_code resp = 200 → json_body resp ≠ Ok v) →
     out_value (get_nearby_blood_banks http_post st lat lon) = JNull
     ∧ length (out_errors (get_nearby_blood_banks http_post st lat lon)) = 1%nat).
Proof.
  split; [|split; [|split; [|split]]].
  - unfold get_nearby_blood_banks. destruct (http_post _ _) as [resp|e]; [|done].
    destruct (decide (status_code resp = 200)); [|done].
    by destruct (json_body resp).
  - unfold get_nearby_blood_banks. destruct (http_post _ _) as [resp|e]; [|done].
    destruct (decide (status_code resp = 200)); [|done].
    by destruct (json_body resp).
  - intros http_post' Heq. unfold get_nearby_blood_banks. by rewrite Heq.
  - intros resp v Hpost Hs Hj. unfold get_nearby_blood_banks.
    rewrite Hpost, decide_True, Hj by done. done.
  - intros Hno. unfold get_nearby_blood_banks.
    destruct (http_post _ _) as [resp|e] eqn:Hpost; [|done].
    destruct (decide (status_code resp = 200)) as [Hs|Hs]; [|done].
    destruct (json_body resp) as [v|e] eqn:Hj; [|done].
    by destruct (Hno resp v).
Qed.

Lemma get_nearby_blood_banks_contract_witness :
  out_value (get_nearby_blood_banks
               (λ _ _, Ok {| status_code := 500; text := "math domain error";
                             json_body := Ok (JObject [("detail", JString "math domain error")]) |})
               {| manual_location := None; all_blood_banks := JNull |}
               pos_inf (of_int 77)) = JNull
  ∧ length (out_errors (get_nearby_blood_banks
               (λ _ _, Ok {| status_code := 500; text := "math domain error";
                             json_body := Ok (JObject [("detail", JString "math domain error")]) |})
               {| manual_location := None; all_blood_banks := JNull |}
               pos_inf (of_int 77))) = 1%nat.
Proof.
  apply (get_nearby_blood_banks_contract
           (λ _ _, Ok {| status_code := 500; text := "math domain error";
                         json_body := Ok (JObject [("detail", JString "math domain error")]) |})
           {| manual_location := None; all_blood_banks := JNull |}
           pos_inf (of_int 77)).
  intros resp v [= <-] Hs. discriminate Hs.
Defined.
